(** * Astro Bot: conversation memory, vector index and turn orchestration

    A shallow embedding of [RAG/run_astrobot.py] (class
    [ConversationalRAGBot] and its command loop) and of the memory
    loading code of [RAG/rag_astrobot.py], with the properties of the
    memory / index synchronisation layer stated and settled against it.

    Python state is threaded explicitly: a computation of type [Py A]
    takes the state of the process and of the disk, and gives back either
    a returned value or a raised exception, together with the state the
    computation left behind (what was mutated before a [raise] stays
    mutated).  The collaborators the program only calls (the generation
    chain, the embedding index, the disk, the file loaders, the text
    splitter, [pickle]) are parameters of the development. *)

From Stdlib Require Import Strings.Byte.
From stdpp Require Import base option list strings pretty gmap.
From Equations Require Import Equations.

Local Open Scope string_scope.
Local Open Scope list_scope.

(** ** Data model *)

(** An entry of [conversation_history]: the dict
    [{'role': ..., 'content': ...}].  Both fields are Python strings; the
    role is kept a string because the code compares it with the literals
    ['HumanMessage'] and ['AIMessage'] and accepts anything else. *)
Record Message := mkMessage { role : string; content : string }.

(** [langchain.schema.Document]: the unit stored by the vector index. *)
Record Document := mkDocument {
  page_content : string;
  metadata : list (string * string)
}.

(** [Document(page_content=text)]: the metadata default to an empty dict. *)
Definition Document_of (text : string) : Document := mkDocument text [].

(** [langchain.schema.HumanMessage] / [AIMessage], as held by
    [ConversationBufferMemory]. *)
Inductive ChatMessage :=
| HumanMessage (text : string)
| AIMessage (text : string).

#[global] Instance Message_eq_dec : EqDecision Message.
Proof. solve_decision. Defined.
#[global] Instance Document_eq_dec : EqDecision Document.
Proof. solve_decision. Defined.
#[global] Instance ChatMessage_eq_dec : EqDecision ChatMessage.
Proof. solve_decision. Defined.

(** The newline of the f-strings. *)
Definition nl : string := String (Ascii.ascii_of_nat 10) "".

(** [f"Human: {human_content}\nAssistant: {ai_content}"] *)
Definition combined_text (human_content ai_content : string) : string :=
  "Human: " +:+ human_content +:+ nl +:+ "Assistant: " +:+ ai_content.

(** ** Exceptions and the [Py] monad *)

Inductive exn :=
| FileNotFoundError      (* open(..., 'rb') on a missing file *)
| UnpicklingError        (* pickle.load on bytes that are no pickle *)
| OSError                (* a write that the disk refuses *)
| ChainError             (* the retrieval / generation chain failed *)
| VectorStoreError       (* add_documents failed *)
| LoaderError            (* loader.load() failed *)
| TypeError              (* iterating or unpacking an object that is not iterable *)
| ValueError             (* unpacking into two names what has not two items *)
| ValidationError.       (* a message constructor refused its content *)

Inductive outcome (A : Type) :=
| Returns (a : A)
| Raises (e : exn).
Arguments Returns {A} a.
Arguments Raises {A} e.

(** The state one bot lives in.  [conversation_history] and [memory] are
    fields of the Python object and die with the process; [vectorstore]
    is the Chroma collection kept under [chroma_persist_dir], [disk] the
    files, and both outlive the process; [stdout] collects what is
    printed. *)
Record State := mkState {
  conversation_history : list Message;
  memory : list ChatMessage;
  vectorstore : list Document;
  disk : gmap string (list byte);
  stdout : list string
}.

Definition set_conversation_history (h : list Message) (s : State) : State :=
  mkState h (memory s) (vectorstore s) (disk s) (stdout s).
Definition set_memory (m : list ChatMessage) (s : State) : State :=
  mkState (conversation_history s) m (vectorstore s) (disk s) (stdout s).
Definition set_vectorstore (v : list Document) (s : State) : State :=
  mkState (conversation_history s) (memory s) v (disk s) (stdout s).
Definition set_disk (d : gmap string (list byte)) (s : State) : State :=
  mkState (conversation_history s) (memory s) (vectorstore s) d (stdout s).
Definition set_stdout (o : list string) (s : State) : State :=
  mkState (conversation_history s) (memory s) (vectorstore s) (disk s) o.

Definition Py (A : Type) : Type := State -> outcome A * State.

Definition ret {A} (a : A) : Py A := fun s => (Returns a, s).
Definition raise {A} (e : exn) : Py A := fun s => (Raises e, s).
Definition bind {A B} (m : Py A) (k : A -> Py B) : Py B :=
  fun s => match m s with
           | (Returns a, s') => k a s'
           | (Raises e, s') => (Raises e, s')
           end.
Definition get {A} (f : State -> A) : Py A := fun s => (Returns (f s), s).
Definition modify (f : State -> State) : Py unit := fun s => (Returns tt, f s).

(** [try: body except E: handler]: [handler e] is [None] for an exception
    the clause does not catch. *)
Definition try_except {A} (body : Py A) (handler : exn -> option (Py A)) : Py A :=
  fun s => match body s with
           | (Returns a, s') => (Returns a, s')
           | (Raises e, s') =>
               match handler e with
               | Some h => h s'
               | None => (Raises e, s')
               end
           end.

Declare Scope py_scope.
Delimit Scope py_scope with py.
Notation "x <- m ;; k" := (bind m (fun x => k))
  (at level 100, m at next level, right associativity) : py_scope.
Notation "m ;;; k" := (bind m (fun _ => k))
  (at level 100, right associativity) : py_scope.
Local Open Scope py_scope.

Definition print (line : string) : Py unit :=
  modify (fun s => set_stdout (stdout s ++ [line]) s).

(** ** The collaborators *)

(** [pickle], for the values of one type: [dumps] never fails on them and
    [loads] gives back what [dumps] wrote. *)
Class Pickle (A : Type) := {
  dumps : A -> list byte;
  loads : list byte -> option A;
  loads_dumps : forall a, loads (dumps a) = Some a
}.

Inductive Loader := TextLoader | PyPDFLoader | Docx2txtLoader.

(** What the outside world does when the program calls it.
    - [chain_answer q index mem]: the answer of
      [self.chain({"question": q})] over the current index and memory;
    - [index_accepts index docs]: whether [add_documents docs] succeeds;
    - [write_limit path payload]: [None] when the disk takes the whole
      payload, [Some k] when the write dies after [k] bytes;
    - [load_file loader path]: the result of [loader.load()];
    - [text_splitter chunk_size chunk_overlap documents]: what
      [RecursiveCharacterTextSplitter(chunk_size, chunk_overlap)
      .split_documents(documents)] returns.  The class belongs to the
      LangChain library; nothing is assumed of its chunks. *)
Record Env := mkEnv {
  chain_answer : string -> list Document -> list ChatMessage -> outcome string;
  index_accepts : list Document -> list Document -> bool;
  write_limit : string -> list byte -> option nat;
  load_file : Loader -> string -> outcome (list Document);
  text_splitter : nat -> nat -> list Document -> list Document
}.

(** The look-ahead of [_add_history_to_vectorstore]: the content of the
    message after index [i] when that message is an ['AIMessage'], and
    the index the loop continues from ([i + 1] once the AI message is
    consumed, [i] otherwise). *)
Definition next_ai_response (h : list Message) (i : nat) : string * nat :=
  if decide (i + 1 < length h) then
    match h !! (i + 1) with
    | Some next_msg =>
        if String.eqb (role next_msg) "AIMessage"
        then (content next_msg, i + 1)
        else ("", i)
    | None => ("", i)
    end
  else ("", i).

(** The [while i < len(self.conversation_history)] loop of
    [_add_history_to_vectorstore], from index [i] with the documents
    collected so far.  [msg = self.conversation_history[i]] is the
    lookup at an index the loop test has found in range, so that its
    [None] case is never reached. *)
Equations? history_loop (h : list Message) (i : nat) (documents : list Document)
  : list Document by wf (length h - i) lt :=
  history_loop h i documents with decide (i < length h) := {
    | right _ := documents
    | left _ with h !! i := {
        | None := documents
        | Some msg with String.eqb (role msg) "HumanMessage" := {
            | true :=
                history_loop h (snd (next_ai_response h i) + 1)
                  (documents ++
                     [Document_of (combined_text (content msg)
                                     (fst (next_ai_response h i)))])
            | false := history_loop h (i + 1) documents } } }.
Proof.
  - unfold next_ai_response. repeat case_match; simpl; lia.
  - lia.
Qed.

(** *** What the loop is expected to collect

    The content of the message after index [i] when that message is an
    ['AIMessage'], the empty string when it is another message or when
    the history ends at [i]. *)
Definition reply_after (h : list Message) (i : nat) : string :=
  match h !! S i with
  | Some next_msg =>
      if String.eqb (role next_msg) "AIMessage" then content next_msg else ""
  | None => ""
  end.

(** The combined document of the message at index [i]: one for a
    ['HumanMessage'], none for any other message. *)
Definition exchange_at (h : list Message) (i : nat) (msg : Message) : option Document :=
  if String.eqb (role msg) "HumanMessage"
  then Some (Document_of (combined_text (content msg) (reply_after h i)))
  else None.

(** One combined document for each ['HumanMessage'] of the history, in
    order. *)
Definition exchange_documents (h : list Message) : list Document :=
  omap (fun im => exchange_at h (fst im) (snd im)) (imap pair h).

(** How often a document occurs in an index. *)
Definition occurrences (d : Document) (index : list Document) : nat :=
  length (filter (fun x => x = d) index).

(** ** Chunking *)

(** A chunk of a source document: its text and where it starts. *)
Record Chunk := mkChunk { chunk_content : string; sourceOffset : nat }.

Section ChunkingPipeline.

(** Modelled from the spec: the [split(document, maxSize, overlap)] of
    the ChunkingPipeline (spec 4.1).  The program itself calls
    LangChain's [RecursiveCharacterTextSplitter], whose code is not part
    of this repository, and nothing below is a statement about that
    class.  The spec prefers to break "at paragraph/sentence boundaries
    nearest the cut point when one exists within a bounded lookback
    window, falling back to a hard cut otherwise", and says neither what
    a boundary is nor how far the window reaches: both are parameters.
    [boundary doc p] holds when a paragraph or a sentence of [doc] ends
    at position [p]; [lookback] is the length of the window. *)
Variable boundary : list Ascii.ascii -> nat -> bool.
Variable lookback : nat.

(** Modelled from the spec: the boundary nearest to [p], looking back over
    [window] positions from [p] itself. *)
Fixpoint boundary_within (doc : list Ascii.ascii) (p window : nat) {struct window}
  : option nat :=
  if boundary doc p then Some p
  else match window, p with
       | S window', S p' => boundary_within doc p' window'
       | _, _ => None
       end.

(** Modelled from the spec: where the chunk that starts at [off] ends.
    The hard cut is [off + maxSize]; a boundary within the lookback
    window before it is preferred, the nearest first.  The window never
    reaches back to [off + overlap], so that the next chunk starts after
    this one did. *)
Definition cut_point (doc : list Ascii.ascii) (maxSize overlap off : nat) : nat :=
  default (off + maxSize)
    (boundary_within doc (off + maxSize) (lookback `min` (maxSize - overlap - 1))).

Lemma boundary_within_bounds doc p window q :
  boundary_within doc p window = Some q -> p - window <= q <= p.
Proof.
  revert p. induction window as [|window IH]; intros p; simpl.
  - destruct (boundary doc p); [|done]. intros [= <-]. lia.
  - destruct (boundary doc p); [intros [= <-]; lia|].
    destruct p as [|p]; [done|]. intros Hq%IH. lia.
Qed.

Lemma cut_point_bounds doc maxSize overlap off :
  overlap < maxSize ->
  off + overlap < cut_point doc maxSize overlap off <= off + maxSize.
Proof.
  intros Hvalid. unfold cut_point.
  destruct (boundary_within doc (off + maxSize)
              (lookback `min` (maxSize - overlap - 1))) as [q|] eqn:E; simpl; [|lia].
  apply boundary_within_bounds in E. lia.
Qed.

(** Modelled from the spec: the chunks from offset [off] on, each with
    the offset it starts at.  A chunk runs to its cut point and the next
    one starts [overlap] characters before that point; the last chunk
    holds what is left.  Outside the input constraint [overlap <
    maxSize] the answer is empty. *)
Equations? split_from (doc : list Ascii.ascii) (maxSize overlap off : nat)
  : list (nat * list Ascii.ascii) by wf (length doc - off) lt :=
  split_from doc maxSize overlap off with decide (off + maxSize < length doc) := {
    | right _ := [(off, drop off doc)]
    | left _ with decide (overlap < maxSize) := {
        | left _ :=
            (off, take (cut_point doc maxSize overlap off - off) (drop off doc))
              :: split_from doc maxSize overlap
                   (cut_point doc maxSize overlap off - overlap)
        | right _ := [] } }.
Proof.
  pose proof (cut_point_bounds doc maxSize overlap off). lia.
Qed.

(** Modelled from the spec: [split(document, maxSize, overlap)], an
    ordered sequence of chunks; a document without content has none. *)
Definition split (document : string) (maxSize overlap : nat) : list Chunk :=
  match String.list_ascii_of_string document with
  | [] => []
  | doc =>
      (fun w => mkChunk (String.string_of_list_ascii (snd w)) (fst w))
        <$> split_from doc maxSize overlap 0
  end.

End ChunkingPipeline.


(** The splitter of the program:
    [RecursiveCharacterTextSplitter(chunk_size=500, chunk_overlap=50)]. *)
Definition chunk_size : nat := 500.
Definition chunk_overlap : nat := 50.

(** [text_splitter.split_documents(documents)] *)
Definition split_documents (env : Env) (documents : list Document) : list Document :=
  text_splitter env chunk_size chunk_overlap documents.

(** ** Loader dispatch *)

(** [s.endswith(suffix)] *)
Definition endswith (s suffix : string) : bool :=
  if decide (String.length suffix <= String.length s)
  then String.eqb
         (String.substring (String.length s - String.length suffix)
            (String.length suffix) s)
         suffix
  else false.

(** [str(e)], the text an exception prints as. *)
Definition str_of_exn (e : exn) : string :=
  match e with
  | FileNotFoundError => "FileNotFoundError"
  | UnpicklingError => "UnpicklingError"
  | OSError => "OSError"
  | ChainError => "ChainError"
  | VectorStoreError => "VectorStoreError"
  | LoaderError => "LoaderError"
  | TypeError => "TypeError"
  | ValueError => "ValueError"
  | ValidationError => "ValidationError"
  end.

Definition unsupported_warning : string :=
  "Unsupported file type. Attempting TextLoader...".

(** The state right after the chain answered and [chat] appended the
    two messages of the turn. *)
Definition after_answer (user_input answer : string) (s : State) : State :=
  set_conversation_history
    (conversation_history s
       ++ [mkMessage "HumanMessage" user_input; mkMessage "AIMessage" answer])
    (set_memory (memory s ++ [HumanMessage user_input; AIMessage answer]) s).

(** The document [chat] builds for a turn. *)
Definition exchange_document (user_input answer : string) : Document :=
  Document_of (combined_text user_input answer).

(** [os.path.exists(path)] *)
Definition path_exists (path : string) : Py bool :=
  files <- get disk ;;
  ret (bool_decide (is_Some (files !! path))).

(** [with open(path, 'rb') as f]: the bytes of the file. *)
Definition open_rb (path : string) : Py (list byte) :=
  files <- get disk ;;
  match files !! path with
  | Some bytes => ret bytes
  | None => raise FileNotFoundError
  end.

(** [pickle.load(f)] on a file that holds an object of the kind the
    caller goes on to use, a history for [run_astrobot.py], or that is
    no pickle.  The load of a file that holds any other object is
    [Dynamic.pickle_load], below. *)
Definition pickle_load {A} `{Pickle A} (bytes : list byte) : Py A :=
  match loads bytes with
  | Some a => ret a
  | None => raise UnpicklingError
  end.

Section Bot.

Context (env : Env) `{PickleHistory : Pickle (list Message)}.

(** [self.pickle_path] *)
Variable pickle_path : string.

(** [with open(path, 'wb') as f: f.write(payload)].  Opening for writing
    truncates the file (or creates it empty) before the first byte is
    written; a write that dies leaves the bytes written so far. *)
Definition write_file (path : string) (payload : list byte) : Py unit :=
  modify (fun s => set_disk (<[path := []]> (disk s)) s) ;;;
  match write_limit env path payload with
  | Some k =>
      if decide (k < length payload) then
        modify (fun s => set_disk (<[path := take k payload]> (disk s)) s) ;;;
        raise OSError
      else modify (fun s => set_disk (<[path := payload]> (disk s)) s)
  | None => modify (fun s => set_disk (<[path := payload]> (disk s)) s)
  end.

(** [vectorstore.add_documents(docs)] *)
Definition add_documents_to (docs : list Document) : Py unit :=
  index <- get vectorstore ;;
  if index_accepts env index docs
  then modify (set_vectorstore (index ++ docs))
  else raise VectorStoreError.

(** [_load_pickle] *)
Definition _load_pickle : Py (list Message) :=
  there <- path_exists pickle_path ;;
  if (there : bool) then
    bytes <- open_rb pickle_path ;;
    pickle_load bytes
  else ret [].

(** [_save_pickle] *)
Definition _save_pickle : Py unit :=
  h <- get conversation_history ;;
  write_file pickle_path (dumps h).

(** [_add_history_to_vectorstore] *)
Definition _add_history_to_vectorstore : Py unit :=
  h <- get conversation_history ;;
  let documents := history_loop h 0 [] in
  match documents with
  | [] => ret tt
  | _ :: _ => add_documents_to documents
  end.

(** [_initialize_vectorstore].  The two branches of the test on
    [chroma_persist_dir] build the same [Chroma] object, the collection
    kept in that directory (empty when the directory is). *)
Definition _initialize_vectorstore : Py unit :=
  h <- get conversation_history ;;
  match h with
  | [] => ret tt
  | _ :: _ => _add_history_to_vectorstore
  end.

(** [_populate_memory] *)
Definition to_chat_message (msg : Message) : ChatMessage :=
  if String.eqb (role msg) "HumanMessage"
  then HumanMessage (content msg)
  else AIMessage (content msg).

Definition _populate_memory : Py unit :=
  h <- get conversation_history ;;
  modify (fun s => set_memory (memory s ++ (to_chat_message <$> h)) s).

(** [__init__]: a process start.  The fields of the object are set from
    scratch, the disk and the index are what the last run left.  Building
    the clients ([Ollama], [HuggingFaceEmbeddings]) and the chain touches
    none of the state and is left out. *)
Definition __init__ : Py unit :=
  h <- _load_pickle ;;
  modify (set_conversation_history h) ;;;
  _initialize_vectorstore ;;;
  modify (set_memory []) ;;;
  _populate_memory.

(** [self.chain({"question": user_input})]: the chain retrieves from the
    index, generates, and records the turn in its memory. *)
Definition call_chain (user_input : string) : Py string :=
  index <- get vectorstore ;;
  mem <- get memory ;;
  match chain_answer env user_input index mem with
  | Returns answer =>
      modify (set_memory (mem ++ [HumanMessage user_input; AIMessage answer])) ;;;
      ret answer
  | Raises e => raise e
  end.

(** [chat] *)
Definition chat (user_input : string) : Py string :=
  answer <- call_chain user_input ;;
  modify (fun s => set_conversation_history
            (conversation_history s ++ [mkMessage "HumanMessage" user_input]) s) ;;;
  modify (fun s => set_conversation_history
            (conversation_history s ++ [mkMessage "AIMessage" answer]) s) ;;;
  add_documents_to [Document_of (combined_text user_input answer)] ;;;
  _save_pickle ;;;
  ret answer.

(** A run of the chat loop over the queries [qs]: the answers when every
    turn returned, the first exception otherwise. *)
Fixpoint chats (qs : list string) : Py (list string) :=
  match qs with
  | [] => ret []
  | q :: qs' =>
      a <- chat q ;;
      rest <- chats qs' ;;
      ret (a :: rest)
  end.

(** The loader chosen for [doc_path] by the ['add a document'] command. *)
Definition select_loader (doc_path : string) : Py Loader :=
  if endswith doc_path ".txt" then ret TextLoader
  else if endswith doc_path ".pdf" then ret PyPDFLoader
  else if endswith doc_path ".docx" then ret Docx2txtLoader
  else print unsupported_warning ;;; ret TextLoader.

(** [loader.load()] *)
Definition loader_load (loader : Loader) (doc_path : string) : Py (list Document) :=
  match load_file env loader doc_path with
  | Returns documents => ret documents
  | Raises e => raise e
  end.

(** The ['add a document'] command of the chat loop, from the path the
    user typed: the [try] block and its [except Exception] clause. *)
Definition add_a_document (doc_path : string) : Py unit :=
  try_except
    (loader <- select_loader doc_path ;;
     documents <- loader_load loader doc_path ;;
     let splits := split_documents env documents in
     add_documents_to splits ;;;
     print ("Successfully added " +:+ pretty (length splits)
              +:+ " document chunks to vector store."))
    (fun e => Some (print ("Error loading document: " +:+ str_of_exn e))).

End Bot.

(** ** The memory of [rag_astrobot.py] *)

Section Rag.

Context `{PickleSaved : Pickle (list (string * string))}.

(** [_deserialize_messages] *)
Definition _deserialize_messages (data : list (string * string)) : list ChatMessage :=
  (fun rc => if String.eqb (fst rc) "HumanMessage"
             then HumanMessage (snd rc)
             else AIMessage (snd rc)) <$> data.

(** The start of the script: [saved] is read from [memory_file], a
    missing file being the one failure that is caught, and the memory is
    created and filled when [saved] is truthy. *)
Definition load_memory (memory_file : string) : Py unit :=
  saved <- try_except
             (bytes <- open_rb memory_file ;;
              data <- pickle_load bytes ;;
              ret (Some data))
             (fun e => match e with
                       | FileNotFoundError => Some (ret None)
                       | _ => None
                       end) ;;
  modify (set_memory []) ;;;
  match saved with
  | Some ((_ :: _) as data) => modify (set_memory (_deserialize_messages data))
  | _ => ret tt
  end.

End Rag.

(** [_serialize_messages] of [rag_astrobot.py]: the class name and the
    content of every message of the memory. *)
Definition _serialize_messages (messages : list ChatMessage) : list (string * string) :=
  (fun m => match m with
            | HumanMessage text => ("HumanMessage", text)
            | AIMessage text => ("AIMessage", text)
            end) <$> messages.

(** ** The rest of the bot and its command loop *)

(** [for doc, metadata in zip(doc_objects, metadatas): doc.metadata =
    metadata]: [zip] stops at the shorter list, the documents beyond it
    keep the metadata they had. *)
Fixpoint attach_metadata (doc_objects : list Document)
    (metadatas : list (list (string * string))) : list Document :=
  match doc_objects, metadatas with
  | doc :: docs, metadata :: rest =>
      mkDocument (page_content doc) metadata :: attach_metadata docs rest
  | _, _ => doc_objects
  end.

(** [str.lower()] on the ASCII letters, which are the only characters
    that [lower] can turn into a letter of the keywords of the loop. *)
Definition lower_ascii (c : Ascii.ascii) : Ascii.ascii :=
  let n := Ascii.nat_of_ascii c in
  if Nat.leb 65 n && Nat.leb n 90 then Ascii.ascii_of_nat (n + 32) else c.

Fixpoint lower (s : string) : string :=
  match s with
  | EmptyString => EmptyString
  | String c s' => String (lower_ascii c) (lower s')
  end.

Definition exit_keywords : list string :=
  ["quit"; "exit"; "shutdown"; "power down"; "bye"].

Definition farewell : string :=
  "Until next time my curious companion!  Astro Bot to the stars!".

Definition banner : string :=
  "Astro Bot booting up! Type 'quit' to exit or 'Add a document' to load a file.".

(** How a run of the command loop ends when no exception leaves it:
    [break] on an exit keyword, or the [EOFError] of [input()] once the
    lines of the standard input are used up. *)
Inductive loop_end := Exited | EndOfInput.

Section Loop.

Context (env : Env) `{PickleHistory : Pickle (list Message)}.
Variable pickle_path : string.

(** [add_documents] *)
Definition add_documents (documents : list string)
    (metadatas : option (list (list (string * string)))) : Py unit :=
  let doc_objects := Document_of <$> documents in
  let doc_objects :=
    match metadatas with
    | Some ((_ :: _) as ms) => attach_metadata doc_objects ms
    | _ => doc_objects
    end in
  add_documents_to env doc_objects ;;;
  print ("Added " +:+ pretty (length documents) +:+ " documents to vector store.").

(** [get_conversation_history] *)
Definition get_conversation_history : Py (list Message) :=
  get conversation_history.

(** The [while True] loop of the script over the lines [input()] will
    read; the prompts go to the standard output like what is printed. *)
Fixpoint chat_loop (lines : list string) : Py loop_end :=
  match lines with
  | [] => print (nl +:+ "Query: ") ;;; ret EndOfInput
  | user_input :: rest =>
      print (nl +:+ "Query: ") ;;;
      if bool_decide (lower user_input ∈ exit_keywords) then
        print farewell ;;; ret Exited
      else if String.eqb (lower user_input) "add a document" then
        match rest with
        | [] => print "Enter document path: " ;;; ret EndOfInput
        | doc_path :: rest' =>
            print "Enter document path: " ;;;
            add_a_document env doc_path ;;;
            chat_loop rest'
        end
      else
        response <- chat env pickle_path user_input ;;
        print (nl +:+ "Astro Bot: " +:+ response) ;;;
        chat_loop rest
  end.

End Loop.

(** The script: [bot = ConversationalRAGBot()] with its default
    [pickle_path], the banner, the loop. *)
Definition main (env : Env) `{Pickle (list Message)} (lines : list string)
  : Py loop_end :=
  __init__ env "conversation_memory.pkl" ;;;
  print banner ;;;
  chat_loop env "conversation_memory.pkl" lines.

(** What a restart would find: loading the history file gives the
    history the bot holds. *)
Definition persisted `{Pickle (list Message)} (pickle_path : string) (s : State) : Prop :=
  fst (_load_pickle pickle_path s) = Returns (conversation_history s).

(** The dialogue context of the chain holds the history, message for
    message. *)
Definition mirrored (s : State) : Prop :=
  memory s = to_chat_message <$> conversation_history s.

(** The messages a run of returning turns appends. *)
Definition turns (qs answers : list string) : list Message :=
  mjoin (zip_with (fun q a => [mkMessage "HumanMessage" q; mkMessage "AIMessage" a])
           qs answers).

(** A state that came from another by appending only: to the history,
    to the index and to the output, and by writing no file but the
    history file. *)
Definition extends (pickle_path : string) (s s' : State) : Prop :=
  conversation_history s `prefix_of` conversation_history s'
  /\ vectorstore s `prefix_of` vectorstore s'
  /\ stdout s `prefix_of` stdout s'
  /\ forall p, p <> pickle_path -> disk s' !! p = disk s !! p.

(** ** Loading whatever the file holds

    [pickle.load] returns the object the file holds, whatever it is:
    the file at [pickle_path] may have been written by [_save_pickle]
    (a list of dicts), by [rag_astrobot.py], which uses the same file
    name (a list of tuples), or by anything else.  The definitions above
    follow a file that holds a history, or no pickle at all, through the
    whole program; the module [Dynamic] follows any object through the
    two loads themselves, [_load_pickle] and the start of
    [rag_astrobot.py]. *)
Module Dynamic.

(** The objects a pickle may hold, as far as these loads look at them.
    A dict keeps its entries in insertion order. *)
#[warnings="-register-all"] Inductive pyobj :=
| PyNone
| PyBool (b : bool)
| PyInt (z : Z)
| PyStr (text : string)
| PyList (items : list pyobj)
| PyTuple (items : list pyobj)
| PyDict (entries : list (pyobj * pyobj)).

(** [{'role': ..., 'content': ...}], the entry that [chat] appends. *)
Definition message_object (msg : Message) : pyobj :=
  PyDict [(PyStr "role", PyStr (role msg)); (PyStr "content", PyStr (content msg))].

(** The object [_save_pickle] dumps: the list of these dicts. *)
Definition history_object (h : list Message) : pyobj :=
  PyList (message_object <$> h).

(** The object [rag_astrobot.py] dumps: the list of tuples
    [(type(m).__name__, m.content)]. *)
Definition saved_object (data : list (string * string)) : pyobj :=
  PyList ((fun rc => PyTuple [PyStr (fst rc); PyStr (snd rc)]) <$> data).

(** [bool(obj)], the test of [if obj:]. *)
Definition truthy (obj : pyobj) : bool :=
  match obj with
  | PyNone => false
  | PyBool b => b
  | PyInt z => negb (Z.eqb z 0)
  | PyStr text => negb (String.eqb text "")
  | PyList [] | PyTuple [] | PyDict [] => false
  | PyList (_ :: _) | PyTuple (_ :: _) | PyDict (_ :: _) => true
  end.

(** [iter(obj)]: the items of a list or tuple, the keys of a dict, the
    characters of a string; [None], a bool and an int are not iterable. *)
Definition iterate (obj : pyobj) : option (list pyobj) :=
  match obj with
  | PyList items | PyTuple items => Some items
  | PyDict entries => Some (fst <$> entries)
  | PyStr text =>
      Some ((fun c => PyStr (String c "")) <$> String.list_ascii_of_string text)
  | PyNone | PyBool _ | PyInt _ => None
  end.

(** The two library calls of the loads: [pickle.load], which gives the
    object of a byte stream that is a pickle, and the constructors
    [HumanMessage(content)] and [AIMessage(content)], which keep a
    string as it is and may refuse another object. *)
Class Runtime := {
  pickle_loads : list byte -> option pyobj;
  message_content : pyobj -> option string;
  message_content_str : forall text, message_content (PyStr text) = Some text
}.

(** [pickle.load(f)] *)
Definition pickle_load `{Runtime} (bytes : list byte) : Py pyobj :=
  match pickle_loads bytes with
  | Some obj => ret obj
  | None => raise UnpicklingError
  end.

Section Loads.

Context `{Runtime}.

(** [_load_pickle] of [run_astrobot.py]: the object comes back as
    [pickle.load] gave it. *)
Definition _load_pickle (pickle_path : string) : Py pyobj :=
  there <- path_exists pickle_path ;;
  if (there : bool) then
    bytes <- open_rb pickle_path ;;
    pickle_load bytes
  else ret (PyList []).

(** [role, content = item] *)
Definition unpack_pair (item : pyobj) : outcome (pyobj * pyobj) :=
  match iterate item with
  | None => Raises TypeError
  | Some [role; content] => Returns (role, content)
  | Some _ => Raises ValueError
  end.

(** [role == "HumanMessage"] *)
Definition is_HumanMessage (role : pyobj) : bool :=
  match role with
  | PyStr text => String.eqb text "HumanMessage"
  | _ => false
  end.

(** The loop of [_deserialize_messages]: the first item that cannot be
    unpacked or built into a message ends it. *)
Fixpoint deserialize_items (items : list pyobj) : outcome (list ChatMessage) :=
  match items with
  | [] => Returns []
  | item :: rest =>
      match unpack_pair item with
      | Returns (role, content) =>
          match message_content content with
          | Some text =>
              match deserialize_items rest with
              | Returns out =>
                  Returns ((if is_HumanMessage role
                            then HumanMessage text
                            else AIMessage text) :: out)
              | Raises e => Raises e
              end
          | None => Raises ValidationError
          end
      | Raises e => Raises e
      end
  end.

(** [_deserialize_messages(data)] of [rag_astrobot.py] *)
Definition _deserialize_messages (data : pyobj) : outcome (list ChatMessage) :=
  match iterate data with
  | Some items => deserialize_items items
  | None => Raises TypeError
  end.

(** The start of [rag_astrobot.py]: [saved] is what [pickle.load] gave,
    or [None] for a missing file; the memory is created, and filled
    when [saved] is truthy. *)
Definition load_memory (memory_file : string) : Py unit :=
  saved <- try_except
             (bytes <- open_rb memory_file ;;
              pickle_load bytes)
             (fun e => match e with
                       | FileNotFoundError => Some (ret PyNone)
                       | _ => None
                       end) ;;
  modify (set_memory []) ;;;
  if truthy saved then
    match _deserialize_messages saved with
    | Returns messages => modify (set_memory messages)
    | Raises e => raise e
    end
  else ret tt.

End Loads.

End Dynamic.

(** ** A concrete [pickle]

    A length-prefixed framing of histories, which obeys the [Pickle]
    interface; the model runs on it wherever a concrete byte stream is
    needed.  A number is written in unary ([x01] repeated, closed by
    [x00]), a string as its length followed by its bytes, a message as
    its role followed by its content, a history as its length followed
    by its messages. *)
Module Framed.

Fixpoint dump_nat (n : nat) : list byte :=
  match n with
  | 0 => [x00]
  | S n' => x01 :: dump_nat n'
  end.

Fixpoint load_nat (bs : list byte) : option (nat * list byte) :=
  match bs with
  | x00 :: rest => Some (0, rest)
  | x01 :: rest =>
      match load_nat rest with
      | Some (n, rest') => Some (S n, rest')
      | None => None
      end
  | _ => None
  end.

Definition dump_str (s : string) : list byte :=
  let bs := String.list_byte_of_string s in dump_nat (length bs) ++ bs.

Definition load_str (bs : list byte) : option (string * list byte) :=
  match load_nat bs with
  | Some (n, rest) =>
      if decide (n <= length rest)
      then Some (String.string_of_list_byte (take n rest), drop n rest)
      else None
  | None => None
  end.

Definition dump_msg (m : Message) : list byte :=
  dump_str (role m) ++ dump_str (content m).

Definition load_msg (bs : list byte) : option (Message * list byte) :=
  match load_str bs with
  | Some (r, rest) =>
      match load_str rest with
      | Some (c, rest') => Some (mkMessage r c, rest')
      | None => None
      end
  | None => None
  end.

Fixpoint dump_msgs (h : list Message) : list byte :=
  match h with
  | [] => []
  | m :: h' => dump_msg m ++ dump_msgs h'
  end.

Fixpoint load_msgs (n : nat) (bs : list byte) : option (list Message * list byte) :=
  match n with
  | 0 => Some ([], bs)
  | S n' =>
      match load_msg bs with
      | Some (m, rest) =>
          match load_msgs n' rest with
          | Some (ms, rest') => Some (m :: ms, rest')
          | None => None
          end
      | None => None
      end
  end.

Definition dumps_history (h : list Message) : list byte :=
  dump_nat (length h) ++ dump_msgs h.

Definition loads_history (bs : list byte) : option (list Message) :=
  match load_nat bs with
  | Some (n, rest) =>
      match load_msgs n rest with
      | Some (h, _) => Some h
      | None => None
      end
  | None => None
  end.

Lemma load_dump_nat n rest : load_nat (dump_nat n ++ rest) = Some (n, rest).
Proof. induction n as [|n IH]; simpl; [done|]. by rewrite IH. Qed.

Lemma load_dump_str s rest : load_str (dump_str s ++ rest) = Some (s, rest).
Proof.
  unfold load_str, dump_str. rewrite <- app_assoc, load_dump_nat.
  rewrite decide_True by (rewrite length_app; lia).
  rewrite take_app_length, drop_app_length.
  by rewrite String.string_of_list_byte_of_string.
Qed.

Lemma load_dump_msg m rest : load_msg (dump_msg m ++ rest) = Some (m, rest).
Proof.
  unfold load_msg, dump_msg. rewrite <- app_assoc.
  rewrite !load_dump_str. by destruct m.
Qed.

Lemma load_dump_msgs h rest :
  load_msgs (length h) (dump_msgs h ++ rest) = Some (h, rest).
Proof.
  induction h as [|m h IH]; simpl; [done|].
  by rewrite <- app_assoc, load_dump_msg, IH.
Qed.

Lemma loads_dumps_history h : loads_history (dumps_history h) = Some h.
Proof.
  unfold loads_history, dumps_history.
  rewrite load_dump_nat.
  rewrite <- (app_nil_r (dump_msgs h)). by rewrite load_dump_msgs.
Qed.

#[export] Instance pickle_history : Pickle (list Message) :=
  {| dumps := dumps_history; loads := loads_history;
     loads_dumps := loads_dumps_history |}.

(** The list of [(role, content)] tuples that [rag_astrobot.py] saves,
    in the same framing. *)
Definition dumps_saved (data : list (string * string)) : list byte :=
  dumps_history ((fun rc => mkMessage (fst rc) (snd rc)) <$> data).

Definition loads_saved (bs : list byte) : option (list (string * string)) :=
  fmap (M := list) (fun m => (role m, content m)) <$> loads_history bs.

Lemma loads_dumps_saved data : loads_saved (dumps_saved data) = Some data.
Proof.
  unfold loads_saved, dumps_saved. rewrite loads_dumps_history. simpl.
  f_equal. rewrite <- list_fmap_compose.
  rewrite <- (list_fmap_id data) at 2. apply list_fmap_ext.
  by intros _ [r c] _.
Qed.

#[export] Instance pickle_saved : Pickle (list (string * string)) :=
  {| dumps := dumps_saved; loads := loads_saved;
     loads_dumps := loads_dumps_saved |}.

End Framed.

(** ** Concrete worlds, for running the model *)

Module Worlds.

Import Framed.

(** The chain answers every question, the index and the disk work, the
    only file a loader can read is ["notes.md"], and the splitter leaves
    every document in one piece. *)
Definition cooperative : Env :=
  mkEnv (fun q _ _ => Returns ("re: " +:+ q))
        (fun _ _ => true)
        (fun _ _ => None)
        (fun loader path =>
           if String.eqb path "notes.md"
           then Returns [Document_of "Nrf2 activation"]
           else Raises LoaderError)
        (fun _ _ documents => documents).

(** The embedding collaborator is unreachable: [add_documents] fails. *)
Definition index_down : Env :=
  mkEnv (chain_answer cooperative) (fun _ _ => false)
        (write_limit cooperative) (load_file cooperative)
        (text_splitter cooperative).

(** The disk takes [k] bytes of a write and no more. *)
Definition disk_full (k : nat) : Env :=
  mkEnv (chain_answer cooperative) (index_accepts cooperative)
        (fun _ _ => Some k) (load_file cooperative)
        (text_splitter cooperative).

(** Nothing on disk, nothing indexed, no bot yet. *)
Definition fresh : State := mkState [] [] [] ∅ [].

Definition hello : list Message :=
  [mkMessage "HumanMessage" "hello"; mkMessage "AIMessage" "re: hello"].

(** The default [pickle_path] of the bot. *)
Definition memory_pkl : string := "conversation_memory.pkl".

(** A bot that holds the exchange [hello] and has not saved it. *)
Definition greeted : State := mkState hello [] [] ∅ [].

(** What a first run with the one turn [hello] leaves behind: the
    history file and the document of the exchange in the index. *)
Definition after_first_run : State :=
  mkState [] [] [exchange_document "hello" "re: hello"]
    {[ memory_pkl := Framed.dumps_history hello ]} [].

(** A first start in an empty directory followed by the turn ["hello"],
    and the start of the next process on what that run left. *)
Definition first_run : State :=
  snd (bind (__init__ cooperative memory_pkl)
         (fun _ => chat cooperative memory_pkl "hello") fresh).

Definition restarted : State := snd (__init__ cooperative memory_pkl first_run).

(** The history file holds [hello]; the bot has two more messages to
    save. *)
Definition about_to_save : State :=
  mkState (hello ++ hello) [] [] {[ memory_pkl := Framed.dumps_history hello ]} [].

(** The history file is there and holds no pickle. *)
Definition corrupted : State :=
  mkState [] [] [] {[ memory_pkl := [x02; x03] ]} [].

(** The history file holds two messages of the assistant and none of
    the user. *)
Definition only_replies : State :=
  mkState [] [] []
    {[ memory_pkl := Framed.dumps_history
                       [mkMessage "AIMessage" "one"; mkMessage "SystemMessage" "two"] ]}
    [].

(** A memory of [rag_astrobot.py] and the file the script leaves for it
    on exit. *)
Definition remembered : list ChatMessage :=
  [HumanMessage "hello"; AIMessage "re: hello"].

Definition memory_saved : State :=
  mkState [] [] []
    {[ memory_pkl := Framed.dumps_saved (_serialize_messages remembered) ]} [].

(** A runtime for the loads of [Dynamic].  Its [pickle.load] knows three
    pickles of protocol 4, those of [None], of [{}] and of the history
    [hello] as [_save_pickle] dumps it, and reads every other file in
    the framing above, as a history.  Its message constructors keep a
    string and refuse any other content. *)
Definition pickle_of_None : list byte := [x80; x04; x4e; x2e].

Definition pickle_of_empty_dict : list byte := [x80; x04; x7d; x94; x2e].

Definition pickle_of_hello : list byte :=
  [x80; x04; x95; x51; x00; x00; x00; x00; x00; x00; x00; x5d; x94; x28; x7d;
   x94; x28; x8c; x04; x72; x6f; x6c; x65; x94; x8c; x0c; x48; x75; x6d; x61;
   x6e; x4d; x65; x73; x73; x61; x67; x65; x94; x8c; x07; x63; x6f; x6e; x74;
   x65; x6e; x74; x94; x8c; x05; x68; x65; x6c; x6c; x6f; x94; x75; x7d; x94;
   x28; x68; x02; x8c; x09; x41; x49; x4d; x65; x73; x73; x61; x67; x65; x94;
   x68; x04; x8c; x09; x72; x65; x3a; x20; x68; x65; x6c; x6c; x6f; x94; x75;
   x65; x2e].

Fixpoint same_bytes (a b : list byte) : bool :=
  match a, b with
  | [], [] => true
  | x :: a', y :: b' => Byte.eqb x y && same_bytes a' b'
  | _, _ => false
  end.

Definition known_pickles (bytes : list byte) : option Dynamic.pyobj :=
  if same_bytes bytes pickle_of_None then Some Dynamic.PyNone
  else if same_bytes bytes pickle_of_empty_dict then Some (Dynamic.PyDict [])
  else if same_bytes bytes pickle_of_hello then Some (Dynamic.history_object hello)
  else Dynamic.history_object <$> Framed.loads_history bytes.

Definition strings_only (content : Dynamic.pyobj) : option string :=
  match content with
  | Dynamic.PyStr text => Some text
  | _ => None
  end.

#[export] Instance runtime : Dynamic.Runtime :=
  {| Dynamic.pickle_loads := known_pickles;
     Dynamic.message_content := strings_only;
     Dynamic.message_content_str := fun _ => eq_refl |}.

(** The history file holds the pickle of an empty dict. *)
Definition holds_empty_dict : State :=
  mkState [] [] [] {[ memory_pkl := pickle_of_empty_dict ]} [].

(** The history file holds the pickle of [None]. *)
Definition holds_None : State :=
  mkState [] [] [] {[ memory_pkl := pickle_of_None ]} [].

(** The file ["conversation_memory.pkl"] as a run of [run_astrobot.py]
    with the one turn [hello] leaves it. *)
Definition holds_hello : State :=
  mkState [] [] [] {[ memory_pkl := pickle_of_hello ]} [].



End Worlds.

(** ** Facts about the pure functions *)

Lemma string_append_assoc (s1 s2 s3 : string) :
  (s1 +:+ s2) +:+ s3 = s1 +:+ s2 +:+ s3.
Proof.
  induction s1 as [|c s1 IH]; [done|].
  change (String c ((s1 +:+ s2) +:+ s3) = String c (s1 +:+ s2 +:+ s3)).
  by rewrite IH.
Qed.

Lemma history_loop_step h i documents :
  history_loop h i documents =
  match h !! i with
  | Some msg =>
      if String.eqb (role msg) "HumanMessage"
      then history_loop h (snd (next_ai_response h i) + 1)
             (documents ++
                [Document_of (combined_text (content msg)
                                (fst (next_ai_response h i)))])
      else history_loop h (i + 1) documents
  | None => documents
  end.
Proof.
  funelim (history_loop h i documents);
    try match goal with H : h !! i = _ |- _ => rewrite H end;
    try match goal with H : String.eqb _ _ = _ |- _ => rewrite H end;
    try done.
  by rewrite lookup_ge_None_2 by lia.
Qed.

Lemma next_ai_response_reply h i :
  fst (next_ai_response h i) = reply_after h i.
Proof.
  unfold next_ai_response, reply_after. rewrite Nat.add_1_r.
  case_decide as Hlt.
  - destruct (h !! S i) as [m|]; [|done].
    by destruct (String.eqb (role m) "AIMessage").
  - by rewrite lookup_ge_None_2 by lia.
Qed.

(** Where the loop goes after a Human message: past the AI message that
    follows it, when there is one. *)
Lemma next_ai_response_skip h i :
  (snd (next_ai_response h i) = i + 1
   /\ exists m, h !! S i = Some m /\ String.eqb (role m) "AIMessage" = true)
  \/ snd (next_ai_response h i) = i.
Proof.
  unfold next_ai_response. rewrite Nat.add_1_r.
  case_decide as Hlt; [|by right].
  destruct (h !! S i) as [m|]; [|by right].
  destruct (String.eqb (role m) "AIMessage") eqn:E; [|by right].
  left. split; [simpl; lia|]. eauto.
Qed.

Lemma drop_imap_lookup (h : list Message) i msg :
  h !! i = Some msg ->
  drop i (imap pair h) = (i, msg) :: drop (S i) (imap pair h).
Proof.
  intros Hi. apply drop_S. by rewrite list_lookup_imap, Hi.
Qed.

Lemma exchange_at_human h i msg :
  String.eqb (role msg) "HumanMessage" = true ->
  exchange_at h i msg
  = Some (Document_of (combined_text (content msg) (reply_after h i))).
Proof. unfold exchange_at. by intros ->. Qed.

Lemma exchange_at_other h i msg :
  String.eqb (role msg) "HumanMessage" = false -> exchange_at h i msg = None.
Proof. unfold exchange_at. by intros ->. Qed.

Lemma exchange_at_ai h i msg :
  String.eqb (role msg) "AIMessage" = true -> exchange_at h i msg = None.
Proof.
  intros Hai%String.eqb_eq. apply exchange_at_other. by rewrite Hai.
Qed.

Lemma omap_exchange_cons h i msg rest :
  omap (fun im => exchange_at h (fst im) (snd im)) ((i, msg) :: rest)
  = match exchange_at h i msg with
    | Some d => d :: omap (fun im => exchange_at h (fst im) (snd im)) rest
    | None => omap (fun im => exchange_at h (fst im) (snd im)) rest
    end.
Proof. done. Qed.

Lemma history_loop_exchanges h i documents :
  history_loop h i documents
  = documents ++ omap (fun im => exchange_at h (fst im) (snd im))
                   (drop i (imap pair h)).
Proof.
  remember (length h - i) as k eqn:Hk.
  revert i documents Hk.
  induction (lt_wf k) as [k _ IH]. intros i documents Hk.
  rewrite history_loop_step.
  destruct (h !! i) as [msg|] eqn:Hi.
  - pose proof (lookup_lt_Some _ _ _ Hi) as Hlt.
    rewrite (drop_imap_lookup _ _ _ Hi), omap_exchange_cons.
    destruct (String.eqb (role msg) "HumanMessage") eqn:Hrole.
    + rewrite (exchange_at_human _ _ _ Hrole), next_ai_response_reply.
      destruct (next_ai_response_skip h i) as [[-> (m & Hm & Hai)] | ->].
      * rewrite (IH (length h - (i + 1 + 1))) by lia.
        rewrite (drop_imap_lookup _ _ _ Hm), omap_exchange_cons.
        rewrite (exchange_at_ai _ _ _ Hai), <- app_assoc.
        by replace (i + 1 + 1) with (S (S i)) by lia.
      * rewrite (IH (length h - (i + 1))) by lia.
        by rewrite <- app_assoc, Nat.add_1_r.
    + rewrite (exchange_at_other _ _ _ Hrole).
      rewrite (IH (length h - (i + 1))) by lia. by rewrite Nat.add_1_r.
  - rewrite drop_ge; [by rewrite app_nil_r|].
    rewrite length_imap. by apply lookup_ge_None.
Qed.

Lemma exchange_documents_length h :
  length (exchange_documents h)
  = length (filter (fun m => String.eqb (role m) "HumanMessage" = true) h).
Proof.
  unfold exchange_documents.
  assert (G : forall (l : list Message) (g : nat -> nat),
             length (omap (fun im => exchange_at h (fst im) (snd im))
                       (imap (fun i m => (g i, m)) l))
             = length (filter (fun m => String.eqb (role m) "HumanMessage" = true) l)).
  { induction l as [|m l IH]; intros g; [done|].
    rewrite imap_cons, omap_exchange_cons, filter_cons.
    specialize (IH (g ∘ S)). unfold compose in *.
    destruct (String.eqb (role m) "HumanMessage") eqn:E.
    - rewrite (exchange_at_human _ _ _ E), decide_True by done.
      simpl. by rewrite <- IH.
    - rewrite (exchange_at_other _ _ _ E), decide_False by done.
      by rewrite <- IH. }
  apply (G h id).
Qed.

Lemma occurrences_app d l1 l2 :
  occurrences d (l1 ++ l2) = occurrences d l1 + occurrences d l2.
Proof. unfold occurrences. by rewrite filter_app, length_app. Qed.

Lemma occurrences_elem_of d l : d ∈ l -> 1 <= occurrences d l.
Proof.
  unfold occurrences. intros Hd.
  assert (Hin : d ∈ filter (fun x => x = d) l) by (by apply list_elem_of_filter).
  destruct (filter (fun x => x = d) l); [by apply not_elem_of_nil in Hin|].
  simpl. lia.
Qed.

(** ** Chunking: the windows of [split] *)

Lemma substring_take_drop n m s :
  String.substring n m s
  = String.string_of_list_ascii (take m (drop n (String.list_ascii_of_string s))).
Proof.
  revert n m. induction s as [|c s IH]; intros [|n] [|m]; simpl; try done;
    by rewrite IH.
Qed.


Lemma length_list_ascii_of_string s :
  length (String.list_ascii_of_string s) = String.length s.
Proof. induction s as [|c s IH]; simpl; [done|]. by rewrite IH. Qed.


Section ChunkingFacts.

Variable boundary : list Ascii.ascii -> nat -> bool.
Variable lookback : nat.








End ChunkingFacts.


(** ** Facts about the operations *)

Section Facts.

Context (env : Env).
Context `{PickleHistory : Pickle (list Message)}.
Context `{PickleSaved : Pickle (list (string * string))}.
Variable pickle_path : string.

Lemma set_disk_set_disk d d' s : set_disk d (set_disk d' s) = set_disk d s.
Proof. by destruct s. Qed.

Lemma set_vectorstore_same s : set_vectorstore (vectorstore s ++ []) s = s.
Proof. destruct s; unfold set_vectorstore; simpl. by rewrite app_nil_r. Qed.

(** What [write_file] leaves on the disk, in every case. *)
Lemma write_file_unfold path payload s :
  write_file env path payload s =
  match write_limit env path payload with
  | Some k =>
      if decide (k < length payload)
      then (Raises OSError, set_disk (<[path := take k payload]> (disk s)) s)
      else (Returns tt, set_disk (<[path := payload]> (disk s)) s)
  | None => (Returns tt, set_disk (<[path := payload]> (disk s)) s)
  end.
Proof.
  unfold write_file, bind, modify, raise; simpl.
  destruct (write_limit env path payload) as [k|]; [case_decide|]; simpl;
    by rewrite set_disk_set_disk, insert_insert_eq.
Qed.

Lemma write_file_returns path payload s s' :
  write_file env path payload s = (Returns tt, s') ->
  s' = set_disk (<[path := payload]> (disk s)) s.
Proof.
  rewrite write_file_unfold.
  destruct (write_limit env path payload) as [k|]; [case_decide|]; congruence.
Qed.

(** Every call of [write_file], failed or not, leaves a file at [path]. *)
Lemma write_file_touches path payload s :
  is_Some (disk (snd (write_file env path payload s)) !! path).
Proof.
  rewrite write_file_unfold.
  destruct (write_limit env path payload) as [k|]; [case_decide|]; simpl;
    rewrite lookup_insert_eq; eauto.
Qed.

Lemma _save_pickle_unfold s :
  _save_pickle env pickle_path s
  = write_file env pickle_path (dumps (conversation_history s)) s.
Proof. done. Qed.

Lemma _load_pickle_unfold s :
  _load_pickle pickle_path s =
  match disk s !! pickle_path with
  | Some bytes =>
      match loads bytes with
      | Some h => (Returns h, s)
      | None => (Raises UnpicklingError, s)
      end
  | None => (Returns [], s)
  end.
Proof.
  unfold _load_pickle, path_exists, open_rb, pickle_load, bind, get, ret, raise.
  simpl. destruct (disk s !! pickle_path) as [bytes|] eqn:E.
  - rewrite bool_decide_eq_true_2 by eauto. simpl. rewrite E.
    by destruct (loads bytes).
  - by rewrite bool_decide_eq_false_2 by (intros [? ?]; done).
Qed.

Lemma load_memory_unfold memory_file s :
  load_memory memory_file s =
  match disk s !! memory_file with
  | Some bytes =>
      match loads bytes with
      | Some data =>
          (Returns tt,
           set_memory (_deserialize_messages data) s)
      | None => (Raises UnpicklingError, s)
      end
  | None => (Returns tt, set_memory [] s)
  end.
Proof.
  unfold load_memory, try_except, open_rb, pickle_load, bind, get, modify, ret, raise.
  simpl. destruct (disk s !! memory_file) as [bytes|]; simpl; [|done].
  destruct (loads bytes) as [[|rc data]|]; simpl; done.
Qed.

Lemma chat_unfold user_input s :
  chat env pickle_path user_input s =
  match chain_answer env user_input (vectorstore s) (memory s) with
  | Returns answer =>
      let s1 := after_answer user_input answer s in
      if index_accepts env (vectorstore s) [exchange_document user_input answer]
      then
        let s2 := set_vectorstore
                    (vectorstore s ++ [exchange_document user_input answer]) s1 in
        match _save_pickle env pickle_path s2 with
        | (Returns _, s3) => (Returns answer, s3)
        | (Raises e, s3) => (Raises e, s3)
        end
      else (Raises VectorStoreError, s1)
  | Raises e => (Raises e, s)
  end.
Proof.
  unfold chat, call_chain, add_documents_to, bind, get, modify, ret, raise.
  simpl.
  destruct (chain_answer env user_input (vectorstore s) (memory s)) as [answer|e];
    simpl; [|done].
  unfold after_answer, exchange_document.
  destruct (index_accepts env _ _); simpl.
  - rewrite <- !app_assoc; simpl.
    by destruct (_save_pickle env pickle_path _) as [[[]|e] s3].
  - by rewrite <- !app_assoc.
Qed.

(** A turn that returns has extended the history by the exchange and the
    index by its document, and has written the history out. *)
Lemma chat_returns user_input s answer s' :
  chat env pickle_path user_input s = (Returns answer, s') ->
  conversation_history s'
    = conversation_history s
        ++ [mkMessage "HumanMessage" user_input; mkMessage "AIMessage" answer]
  /\ vectorstore s' = vectorstore s ++ [exchange_document user_input answer]
  /\ disk s' !! pickle_path = Some (dumps (conversation_history s')).
Proof.
  rewrite chat_unfold.
  destruct (chain_answer env _ _ _) as [a|e]; [|done]. simpl.
  destruct (index_accepts env _ _); [|done].
  destruct (_save_pickle env pickle_path _) as [[[]|e] s3] eqn:E; [|done].
  intros [= <- <-].
  unfold _save_pickle, bind, get in E; simpl in E.
  apply write_file_returns in E. subst s3. simpl.
  by rewrite lookup_insert_eq.
Qed.

Lemma _add_history_to_vectorstore_unfold s :
  _add_history_to_vectorstore env s =
  let documents := exchange_documents (conversation_history s) in
  match documents with
  | [] => (Returns tt, s)
  | _ :: _ =>
      if index_accepts env (vectorstore s) documents
      then (Returns tt, set_vectorstore (vectorstore s ++ documents) s)
      else (Raises VectorStoreError, s)
  end.
Proof.
  unfold _add_history_to_vectorstore, add_documents_to, bind, get, modify, ret, raise.
  simpl. rewrite history_loop_exchanges. simpl. rewrite drop_0.
  fold (exchange_documents (conversation_history s)).
  destruct (exchange_documents (conversation_history s)); [done|].
  by destruct (index_accepts env _ _).
Qed.

Lemma _add_history_to_vectorstore_accepted s :
  index_accepts env (vectorstore s) (exchange_documents (conversation_history s)) = true ->
  _add_history_to_vectorstore env s
  = (Returns tt,
     set_vectorstore (vectorstore s ++ exchange_documents (conversation_history s)) s).
Proof.
  intros Hacc. rewrite _add_history_to_vectorstore_unfold. simpl.
  destruct (exchange_documents (conversation_history s)) eqn:E.
  - by rewrite set_vectorstore_same.
  - by rewrite Hacc.
Qed.

(** The ['add a document'] command never lets an exception out. *)
Lemma add_a_document_returns doc_path s :
  exists s', add_a_document env doc_path s = (Returns tt, s').
Proof.
  unfold add_a_document, try_except.
  destruct (bind _ _ s) as [[[]|e] s1]; [eauto|].
  unfold print, modify. eauto.
Qed.

End Facts.

(** ** Further facts: one turn, a start, a restart *)

Lemma exchange_documents_nil : exchange_documents [] = [].
Proof. done. Qed.

Lemma omap_cons_unfold {A B} (f : A -> option B) (a : A) (l : list A) :
  omap f (a :: l)
  = match f a with Some y => y :: omap f l | None => omap f l end.
Proof. done. Qed.

Lemma omap_imap_reindex {A B} (F G : nat * A -> option B) (g1 g2 : nat -> nat)
    (l : list A) :
  (forall i x, F (g1 i, x) = G (g2 i, x)) ->
  omap F (imap (fun i x => (g1 i, x)) l) = omap G (imap (fun i x => (g2 i, x)) l).
Proof.
  intros Hfg. revert g1 g2 Hfg.
  induction l as [|x l IH]; intros g1 g2 Hfg; [done|].
  pose proof (IH (g1 ∘ S) (g2 ∘ S) (fun i x => Hfg (S i) x)) as Htail.
  rewrite !imap_cons. unfold compose in *. cbn beta in *.
  change (omap F ((g1 0, x) :: imap (fun i y => (g1 (S i), y)) l)
          = omap G ((g2 0, x) :: imap (fun i y => (g2 (S i), y)) l)).
  by rewrite !omap_cons_unfold, Hfg, Htail.
Qed.

(** The documents of a history, message by message. *)
Lemma exchange_documents_cons m h :
  exchange_documents (m :: h)
  = match exchange_at (m :: h) 0 m with
    | Some d => d :: exchange_documents h
    | None => exchange_documents h
    end.
Proof.
  unfold exchange_documents. rewrite imap_cons, omap_exchange_cons.
  assert (Htail :
    omap (fun im => exchange_at (m :: h) (fst im) (snd im)) (imap (pair ∘ S) h)
    = omap (fun im => exchange_at h (fst im) (snd im)) (imap pair h)).
  { apply (omap_imap_reindex
             (fun im => exchange_at (m :: h) (fst im) (snd im))
             (fun im => exchange_at h (fst im) (snd im)) S id).
    done. }
  by rewrite Htail.
Qed.

(** Messages appended after a history change none of its documents,
    unless they start with an AI message, which then becomes the reply of
    a Human message that ended the history. *)
Lemma exchange_documents_app h t :
  (forall m, head t = Some m -> String.eqb (role m) "AIMessage" = false) ->
  exchange_documents (h ++ t) = exchange_documents h ++ exchange_documents t.
Proof.
  intros Ht. induction h as [|m h IH]; [done|].
  rewrite <- app_comm_cons, !exchange_documents_cons, IH.
  assert (Hat : exchange_at (m :: h ++ t) 0 m = exchange_at (m :: h) 0 m).
  { unfold exchange_at, reply_after. simpl.
    destruct h as [|m' h]; simpl; [|done].
    destruct t as [|m' t]; simpl; [done|].
    by rewrite (Ht m' eq_refl). }
  rewrite Hat. by destruct (exchange_at (m :: h) 0 m).
Qed.

Lemma exchange_documents_turn q a :
  exchange_documents [mkMessage "HumanMessage" q; mkMessage "AIMessage" a]
  = [exchange_document q a].
Proof. done. Qed.

Lemma exchange_documents_turns qs answers :
  exchange_documents (turns qs answers) = zip_with exchange_document qs answers.
Proof.
  revert answers. induction qs as [|q qs IH]; intros [|a answers]; try done.
  unfold turns. simpl. fold (turns qs answers).
  change (mkMessage "HumanMessage" q :: mkMessage "AIMessage" a :: turns qs answers)
    with ([mkMessage "HumanMessage" q; mkMessage "AIMessage" a] ++ turns qs answers).
  rewrite exchange_documents_app, exchange_documents_turn, IH; [done|].
  intros m. destruct qs as [|q' qs], answers as [|a' answers]; simpl; try done.
  by intros [= <-].
Qed.

Section MoreFacts.

Context (env : Env).
Context `{PickleHistory : Pickle (list Message)}.
Variable pickle_path : string.

(** Whatever happens to a write, the only file it touches is its own. *)
Lemma write_file_disk path payload s :
  exists bytes,
    snd (write_file env path payload s)
    = set_disk (<[path := bytes]> (disk s)) s.
Proof.
  rewrite write_file_unfold.
  destruct (write_limit env path payload) as [k|]; [case_decide|]; simpl; eauto.
Qed.

(** The state a call of [chat] leaves, case by case. *)
Lemma chat_state user_input s :
  snd (chat env pickle_path user_input s) = s
  \/ exists answer,
       chain_answer env user_input (vectorstore s) (memory s) = Returns answer
       /\ (snd (chat env pickle_path user_input s) = after_answer user_input answer s
           \/ exists bytes,
                snd (chat env pickle_path user_input s)
                = set_disk (<[pickle_path := bytes]> (disk s))
                    (set_vectorstore
                       (vectorstore s ++ [exchange_document user_input answer])
                       (after_answer user_input answer s))).
Proof.
  rewrite chat_unfold.
  destruct (chain_answer env _ _ _) as [answer|e]; [|by left].
  right. exists answer. split; [done|]. simpl.
  destruct (index_accepts env _ _); [|by left].
  right. rewrite _save_pickle_unfold.
  destruct (write_file_disk pickle_path
              (dumps (conversation_history
                        (set_vectorstore
                           (vectorstore s ++ [exchange_document user_input answer])
                           (after_answer user_input answer s))))
              (set_vectorstore
                 (vectorstore s ++ [exchange_document user_input answer])
                 (after_answer user_input answer s))) as [bytes Hw].
  exists bytes.
  destruct (write_file env pickle_path _ _) as [[[]|e] s3]; simpl in *; by subst.
Qed.

Lemma chats_returns qs s answers s' :
  chats env pickle_path qs s = (Returns answers, s') ->
  length answers = length qs
  /\ conversation_history s' = conversation_history s ++ turns qs answers
  /\ vectorstore s' = vectorstore s ++ zip_with exchange_document qs answers
  /\ (qs <> [] -> disk s' !! pickle_path = Some (dumps (conversation_history s'))).
Proof.
  revert s answers s'. induction qs as [|q qs IH]; intros s answers s'; simpl.
  - intros [= <- <-]. by rewrite !app_nil_r.
  - unfold bind at 1.
    destruct (chat env pickle_path q s) as [[a|e] s1] eqn:Hq; [|done].
    unfold bind at 1.
    destruct (chats env pickle_path qs s1) as [[rest|e] s2] eqn:Hrest; [|done].
    intros [= <- <-].
    apply chat_returns in Hq as (Hh1 & Hv1 & Hd1).
    pose proof (IH _ _ _ Hrest) as (Hlen & Hh2 & Hv2 & Hd2).
    repeat split.
    + simpl. by rewrite Hlen.
    + rewrite Hh2, Hh1. unfold turns. simpl. by rewrite <- !app_assoc.
    + rewrite Hv2, Hv1. simpl. by rewrite <- !app_assoc.
    + intros _. destruct qs as [|q' qs].
      * simpl in Hrest. by injection Hrest as <- <-.
      * by apply Hd2.
Qed.

(** What [__init__] does, case by case. *)
Lemma init_unfold s :
  __init__ env pickle_path s =
  match disk s !! pickle_path with
  | Some bytes =>
      match loads bytes with
      | Some h =>
          match exchange_documents h with
          | [] =>
              (Returns tt,
               mkState h (to_chat_message <$> h) (vectorstore s) (disk s) (stdout s))
          | d :: docs =>
              if index_accepts env (vectorstore s) (d :: docs)
              then (Returns tt,
                    mkState h (to_chat_message <$> h)
                      (vectorstore s ++ d :: docs) (disk s) (stdout s))
              else (Raises VectorStoreError, set_conversation_history h s)
          end
      | None => (Raises UnpicklingError, s)
      end
  | None => (Returns tt, mkState [] [] (vectorstore s) (disk s) (stdout s))
  end.
Proof.
  unfold __init__. unfold bind at 1. rewrite _load_pickle_unfold.
  destruct (disk s !! pickle_path) as [bytes|]; [|done].
  destruct (loads bytes) as [h|]; [|done].
  unfold bind at 1, modify at 1. unfold bind at 1.
  unfold _initialize_vectorstore. unfold bind at 1, get at 1. simpl.
  destruct h as [|m h'].
  - by rewrite exchange_documents_nil.
  - rewrite _add_history_to_vectorstore_unfold. simpl.
    destruct (exchange_documents (m :: h')) as [|d docs]; [done|].
    by destruct (index_accepts env _ _).
Qed.

End MoreFacts.

(** ** The loads of [Dynamic] *)

Section DynamicFacts.

Context `{Runtime : Dynamic.Runtime}.

Lemma dynamic_load_pickle_unfold path s :
  Dynamic._load_pickle path s =
  match disk s !! path with
  | Some bytes =>
      match Dynamic.pickle_loads bytes with
      | Some obj => (Returns obj, s)
      | None => (Raises UnpicklingError, s)
      end
  | None => (Returns (Dynamic.PyList []), s)
  end.
Proof.
  unfold Dynamic._load_pickle, path_exists, open_rb, Dynamic.pickle_load,
    bind, get, ret, raise.
  simpl. destruct (disk s !! path) as [bytes|] eqn:E.
  - rewrite bool_decide_eq_true_2 by eauto. simpl. rewrite E.
    by destruct (Dynamic.pickle_loads bytes).
  - rewrite bool_decide_eq_false_2; [done|]. by intros [? ?].
Qed.

Lemma dynamic_load_memory_unfold path s :
  Dynamic.load_memory path s =
  match disk s !! path with
  | Some bytes =>
      match Dynamic.pickle_loads bytes with
      | Some obj =>
          if Dynamic.truthy obj then
            match Dynamic._deserialize_messages obj with
            | Returns messages => (Returns tt, set_memory messages s)
            | Raises e => (Raises e, set_memory [] s)
            end
          else (Returns tt, set_memory [] s)
      | None => (Raises UnpicklingError, s)
      end
  | None => (Returns tt, set_memory [] s)
  end.
Proof.
  unfold Dynamic.load_memory, try_except, open_rb, Dynamic.pickle_load,
    bind, get, modify, ret, raise.
  simpl. destruct (disk s !! path) as [bytes|]; simpl; [|done].
  destruct (Dynamic.pickle_loads bytes) as [obj|]; simpl; [|done].
  destruct (Dynamic.truthy obj); simpl; [|done].
  by destruct (Dynamic._deserialize_messages obj).
Qed.

(** Unpacking a dict binds its keys: every message of a history that
    [_save_pickle] dumped is read as [AIMessage("content")]. *)
Lemma deserialize_history_object h :
  Dynamic._deserialize_messages (Dynamic.history_object h)
  = Returns ((fun _ => AIMessage "content") <$> h).
Proof.
  change (Dynamic.deserialize_items (Dynamic.message_object <$> h)
          = Returns ((fun _ => AIMessage "content") <$> h)).
  induction h as [|msg h IH]; [done|].
  rewrite !fmap_cons.
  change (Dynamic.deserialize_items
            (Dynamic.message_object msg :: (Dynamic.message_object <$> h)))
    with (match Dynamic.message_content (Dynamic.PyStr "content") with
          | Some text =>
              match Dynamic.deserialize_items (Dynamic.message_object <$> h) with
              | Returns out => Returns (AIMessage text :: out)
              | Raises e => Raises e
              end
          | None => Raises ValidationError
          end).
  by rewrite Dynamic.message_content_str, IH.
Qed.

(** The list of tuples that [rag_astrobot.py] dumped is read as the
    messages it was made from. *)
Lemma deserialize_saved_object data :
  Dynamic._deserialize_messages (Dynamic.saved_object data)
  = Returns (_deserialize_messages data).
Proof.
  change (Dynamic.deserialize_items
            ((fun rc => Dynamic.PyTuple [Dynamic.PyStr (fst rc); Dynamic.PyStr (snd rc)])
               <$> data)
          = Returns (_deserialize_messages data)).
  induction data as [|[role content] data IH]; [done|].
  unfold _deserialize_messages. rewrite !fmap_cons.
  fold (_deserialize_messages data). simpl fst. simpl snd.
  change (Dynamic.deserialize_items
            (Dynamic.PyTuple [Dynamic.PyStr role; Dynamic.PyStr content]
             :: ((fun rc => Dynamic.PyTuple [Dynamic.PyStr (fst rc); Dynamic.PyStr (snd rc)])
                   <$> data)))
    with (match Dynamic.message_content (Dynamic.PyStr content) with
          | Some text =>
              match Dynamic.deserialize_items
                      ((fun rc => Dynamic.PyTuple
                                    [Dynamic.PyStr (fst rc); Dynamic.PyStr (snd rc)])
                         <$> data) with
              | Returns out =>
                  Returns ((if String.eqb role "HumanMessage"
                            then HumanMessage text
                            else AIMessage text) :: out)
              | Raises e => Raises e
              end
          | None => Raises ValidationError
          end).
  by rewrite Dynamic.message_content_str, IH.
Qed.

Lemma truthy_history_object h :
  Dynamic.truthy (Dynamic.history_object h) = bool_decide (h <> []).
Proof. by destruct h. Qed.

Lemma truthy_saved_object data :
  Dynamic.truthy (Dynamic.saved_object data) = bool_decide (data <> []).
Proof. by destruct data. Qed.

End DynamicFacts.

(** ** Properties of the memory and index synchronisation *)

Section Properties.

Context (env : Env).
Context `{PickleHistory : Pickle (list Message)}.
Context `{PickleSaved : Pickle (list (string * string))}.
Variable pickle_path : string.

(** The library calls of the loads of [Dynamic]. *)
Context `{Runtime : Dynamic.Runtime}.

(** The parameters of the chunking pipeline. *)
Variable boundary : list Ascii.ascii -> nat -> bool.
Variable lookback : nat.

(** C1, as the code has it: a start that loads a non-empty history
    indexes it again.  [__init__] appends to the index, whatever the
    index already holds, the combined documents of the loaded history,
    one for each ['HumanMessage']; a document of the history that a prior
    run had indexed is in the index at least twice afterwards. *)
Theorem init_reindexes_loaded_history (s : State) (bytes : list byte) (h : list Message) :
  disk s !! pickle_path = Some bytes ->
  loads bytes = Some h ->
  h <> [] ->
  index_accepts env (vectorstore s) (exchange_documents h) = true ->
  __init__ env pickle_path s
  = (Returns tt,
     mkState h (to_chat_message <$> h)
       (vectorstore s ++ exchange_documents h) (disk s) (stdout s))
  /\ forall d,
       d ∈ exchange_documents h ->
       occurrences d (vectorstore s ++ exchange_documents h)
       = occurrences d (vectorstore s) + occurrences d (exchange_documents h)
       /\ (d ∈ vectorstore s ->
           2 <= occurrences d (vectorstore s ++ exchange_documents h)).
Proof.
  intros Hfile Hloads Hne Hacc. split.
  - unfold __init__. unfold bind at 1.
    rewrite _load_pickle_unfold, Hfile, Hloads.
    unfold bind at 1, modify at 1. unfold bind at 1.
    unfold _initialize_vectorstore. unfold bind at 1, get at 1. simpl.
    destruct h as [|m h']; [done|].
    rewrite _add_history_to_vectorstore_accepted by done. simpl.
    unfold bind, modify, _populate_memory, get. simpl. done.
  - intros d Hd. rewrite occurrences_app. split; [done|].
    intros Hin. apply occurrences_elem_of in Hd, Hin. lia.
Qed.

(** C2, as the code has it: [_save_pickle] writes the serialised history
    straight into the target file, which opening truncates; there is no
    temporary file and no replace.  When the write completes the file is
    the new version; when it dies after [k] bytes the file holds the
    first [k] bytes of the new version and the previous content is gone. *)
Theorem save_pickle_writes_in_place (s : State) :
  let payload := dumps (conversation_history s) in
  _save_pickle env pickle_path s =
  match write_limit env pickle_path payload with
  | Some k =>
      if decide (k < length payload)
      then (Raises OSError, set_disk (<[pickle_path := take k payload]> (disk s)) s)
      else (Returns tt, set_disk (<[pickle_path := payload]> (disk s)) s)
  | None => (Returns tt, set_disk (<[pickle_path := payload]> (disk s)) s)
  end.
Proof.
  intros payload. rewrite _save_pickle_unfold. apply write_file_unfold.
Qed.

(** C3, as the code has it: in [chat] the index insertion runs before
    the save and nothing catches its failure.  When the insertion fails,
    the exception leaves [chat], the two messages stay appended in memory
    and the save is not attempted (disk and index are untouched); when
    the save fails, the insertion has already completed and the exception
    leaves [chat].  Either failure surfaces as the exception of the call. *)
Theorem chat_failures_propagate (user_input answer : string) (s : State) :
  chain_answer env user_input (vectorstore s) (memory s) = Returns answer ->
  let doc := exchange_document user_input answer in
  let s1 := after_answer user_input answer s in
  let payload := dumps (conversation_history s1) in
  (index_accepts env (vectorstore s) [doc] = false ->
   chat env pickle_path user_input s = (Raises VectorStoreError, s1)
   /\ disk s1 = disk s /\ vectorstore s1 = vectorstore s)
  /\ (forall k,
        index_accepts env (vectorstore s) [doc] = true ->
        write_limit env pickle_path payload = Some k ->
        k < length payload ->
        chat env pickle_path user_input s
        = (Raises OSError,
           set_disk (<[pickle_path := take k payload]> (disk s))
             (set_vectorstore (vectorstore s ++ [doc]) s1))).
Proof.
  intros Hans doc s1 payload. split.
  - intros Hidx. rewrite chat_unfold, Hans. simpl. fold doc.
    by rewrite Hidx.
  - intros k Hidx Hlim Hk. rewrite chat_unfold, Hans. simpl. fold doc.
    rewrite Hidx, _save_pickle_unfold, write_file_unfold.
    change (conversation_history (set_vectorstore _ ?x))
      with (conversation_history x).
    fold s1 payload. rewrite Hlim.
    by rewrite decide_True by done.
Qed.

(** C4: from an empty history and an empty index, a run of [N] turns
    that all return leaves [2N] messages in the history, a Human message
    then an Assistant message for each turn, and [N] documents in the
    index. *)
Theorem chats_history_index_parity (qs answers : list string) (s s' : State) :
  conversation_history s = [] ->
  vectorstore s = [] ->
  chats env pickle_path qs s = (Returns answers, s') ->
  length (conversation_history s') = 2 * length qs
  /\ length (vectorstore s') = length qs
  /\ conversation_history s'
     = mjoin (zip_with (fun q a => [mkMessage "HumanMessage" q;
                                    mkMessage "AIMessage" a]) qs answers)
  /\ vectorstore s' = zip_with exchange_document qs answers.
Proof.
  intros Hh Hv Hrun.
  assert (G : forall qs answers s s',
             chats env pickle_path qs s = (Returns answers, s') ->
             length answers = length qs
             /\ conversation_history s'
                = conversation_history s
                    ++ mjoin (zip_with (fun q a => [mkMessage "HumanMessage" q;
                                                    mkMessage "AIMessage" a])
                                qs answers)
             /\ vectorstore s' = vectorstore s ++ zip_with exchange_document qs answers).
  { clear. induction qs as [|q qs IH]; intros answers s s'; simpl.
    - intros [= <- <-]. by rewrite !app_nil_r.
    - unfold bind at 1.
      destruct (chat env pickle_path q s) as [[a|e] s1] eqn:Hq; [|done].
      unfold bind at 1.
      destruct (chats env pickle_path qs s1) as [[rest|e] s2] eqn:Hrest; [|done].
      intros [= <- <-].
      apply chat_returns in Hq as (Hh1 & Hv1 & _).
      apply IH in Hrest as (Hlen & Hh2 & Hv2).
      simpl. rewrite Hlen, Hh2, Hv2, Hh1, Hv1.
      by rewrite <- !app_assoc. }
  apply G in Hrun as (Hlen & Hh' & Hv').
  rewrite Hh in Hh'. rewrite Hv in Hv'. simpl in *.
  rewrite Hh', Hv'. repeat split.
  - clear -Hlen. revert answers Hlen.
    induction qs as [|q qs IH]; intros [|a answers] Hlen; simpl in *; try done.
    rewrite IH by lia. lia.
  - rewrite length_zip_with. lia.
Qed.

(** C5: after a [_save_pickle] that returned, the file at the path holds
    the pickle of the history that was saved, and [_load_pickle] run
    from any state that has that disk, whatever history, memory and
    index it holds itself, returns that history: the messages in
    order, role and content of each unchanged. *)
Theorem load_after_save_roundtrip (s s' t : State) :
  _save_pickle env pickle_path s = (Returns tt, s') ->
  disk t = disk s' ->
  disk s' !! pickle_path = Some (dumps (conversation_history s))
  /\ _load_pickle pickle_path t = (Returns (conversation_history s), t).
Proof.
  unfold _save_pickle, bind, get; simpl. intros Hw Hdisk.
  apply write_file_returns in Hw. subst s'. simpl in *.
  rewrite _load_pickle_unfold, Hdisk.
  by rewrite lookup_insert_eq, loads_dumps.
Qed.

(** C6, as the code has it.  With no file at the path, [_load_pickle]
    returns the empty list and [rag_astrobot.py] starts with an empty
    memory, without an error.  With a file that is no pickle, the error
    of [pickle.load] leaves both loads.  With a file that holds a
    pickle, of a history or of any other object, neither load checks
    what it holds and neither raises for it: [_load_pickle] returns
    the object as it is; [rag_astrobot.py] starts with an empty memory
    when the object is falsy, reads the list of dicts that
    [run_astrobot.py] keeps under the same file name as one
    [AIMessage("content")] for each of its messages, and reads its own
    list of tuples as the messages it was made from. *)
Theorem load_missing_or_malformed (path : string) (s : State) :
  (disk s !! path = None ->
   Dynamic._load_pickle path s = (Returns (Dynamic.PyList []), s)
   /\ Dynamic.load_memory path s = (Returns tt, set_memory [] s))
  /\ (forall bytes,
        disk s !! path = Some bytes ->
        (Dynamic.pickle_loads bytes = None ->
         Dynamic._load_pickle path s = (Raises UnpicklingError, s)
         /\ Dynamic.load_memory path s = (Raises UnpicklingError, s))
        /\ (forall obj,
              Dynamic.pickle_loads bytes = Some obj ->
              Dynamic._load_pickle path s = (Returns obj, s)
              /\ (Dynamic.truthy obj = false ->
                  Dynamic.load_memory path s = (Returns tt, set_memory [] s))
              /\ (forall h,
                    obj = Dynamic.history_object h ->
                    Dynamic.load_memory path s
                    = (Returns tt, set_memory ((fun _ => AIMessage "content") <$> h) s))
              /\ (forall data,
                    obj = Dynamic.saved_object data ->
                    Dynamic.load_memory path s
                    = (Returns tt, set_memory (_deserialize_messages data) s)))).
Proof.
  rewrite dynamic_load_pickle_unfold, dynamic_load_memory_unfold. split.
  - by intros ->.
  - intros bytes ->. split.
    + by intros ->.
    + intros obj ->. split; [done|]. split; [by intros ->|]. split.
      * intros h ->. rewrite deserialize_history_object. by destruct h.
      * intros data ->. rewrite deserialize_saved_object. by destruct data.
Qed.


(** C8: a path that ends in none of [.txt], [.pdf], [.docx] selects the
    plain-text loader after printing the warning, and selecting does not
    fail.  The command itself returns whatever happens next; when the
    text loader reads the file and the index takes the chunks, they are
    added as for a recognised file. *)
Theorem unrecognized_extension_uses_text_loader (doc_path : string) (s : State) :
  endswith doc_path ".txt" = false ->
  endswith doc_path ".pdf" = false ->
  endswith doc_path ".docx" = false ->
  select_loader doc_path s
  = (Returns TextLoader, set_stdout (stdout s ++ [unsupported_warning]) s)
  /\ (exists s', add_a_document env doc_path s = (Returns tt, s'))
  /\ (forall documents,
        load_file env TextLoader doc_path = Returns documents ->
        index_accepts env (vectorstore s) (split_documents env documents) = true ->
        add_a_document env doc_path s
        = (Returns tt,
           set_stdout
             (stdout s
                ++ [unsupported_warning;
                    "Successfully added "
                      +:+ pretty (length (split_documents env documents))
                      +:+ " document chunks to vector store."])
             (set_vectorstore (vectorstore s ++ split_documents env documents) s))).
Proof.
  intros Htxt Hpdf Hdocx.
  assert (Hsel : select_loader doc_path s
                 = (Returns TextLoader,
                    set_stdout (stdout s ++ [unsupported_warning]) s)).
  { unfold select_loader. by rewrite Htxt, Hpdf, Hdocx. }
  split; [done|]. split; [apply add_a_document_returns|].
  intros documents Hload Hacc.
  unfold add_a_document, try_except. unfold bind at 1. rewrite Hsel.
  unfold loader_load. rewrite Hload.
  unfold add_documents_to, bind, get, ret, print, modify. simpl.
  rewrite Hacc. simpl. unfold set_stdout, set_vectorstore. simpl.
  by rewrite <- app_assoc.
Qed.

(** C9: [_add_history_to_vectorstore] builds one document for each
    ['HumanMessage'] of the history and none for any other message, in
    the order of the history.  The document of the Human message at
    index [i] has no metadata, and its text is ["Human: "], the content
    of that message, a newline, ["Assistant: "], and then the content
    of the message at [i + 1] when that message is an ['AIMessage'],
    nothing when it is any other message or when there is none.  So an
    AI message enters the index only as the reply of the Human message
    right before it.  With no document to add the index is not called
    and the state is unchanged; otherwise the documents are appended to
    the index, in one call, or the failure of that call is raised. *)
Theorem add_history_one_document_per_human (s : State) :
  let h := conversation_history s in
  let documents :=
    omap (fun im : nat * Message =>
            if String.eqb (role im.2) "HumanMessage"
            then Some (mkDocument
                         ("Human: " +:+ content im.2
                          +:+ String (Ascii.ascii_of_nat 10) ""
                          +:+ "Assistant: "
                          +:+ match h !! S im.1 with
                              | Some next_msg =>
                                  if String.eqb (role next_msg) "AIMessage"
                                  then content next_msg
                                  else ""
                              | None => ""
                              end)
                         [])
            else None)
         (imap pair h) in
  _add_history_to_vectorstore env s
  = match documents with
    | [] => (Returns tt, s)
    | _ :: _ =>
        if index_accepts env (vectorstore s) documents
        then (Returns tt, set_vectorstore (vectorstore s ++ documents) s)
        else (Raises VectorStoreError, s)
    end
  /\ length documents
     = length (filter (fun m => String.eqb (role m) "HumanMessage" = true) h)
  /\ (forall d,
        d ∈ documents <->
        exists i msg,
          h !! i = Some msg /\ role msg = "HumanMessage"
          /\ metadata d = []
          /\ page_content d
             = "Human: " +:+ content msg +:+ String (Ascii.ascii_of_nat 10) ""
               +:+ "Assistant: "
               +:+ match h !! S i with
                   | Some next_msg =>
                       if String.eqb (role next_msg) "AIMessage"
                       then content next_msg
                       else ""
                   | None => ""
                   end).
Proof.
  intros h documents.
  assert (Hdocs : documents = exchange_documents h) by reflexivity.
  rewrite Hdocs. clear documents Hdocs.
  split; [apply _add_history_to_vectorstore_unfold|].
  split; [apply exchange_documents_length|].
  intros d. unfold exchange_documents. rewrite list_elem_of_omap. split.
  - intros ([i msg] & Him & Hex). simpl in Hex.
    apply elem_of_lookup_imap_1 in Him as (i' & msg' & [= -> ->] & Hi).
    unfold exchange_at in Hex.
    destruct (String.eqb (role msg') "HumanMessage") eqn:E; [|done].
    apply String.eqb_eq in E. injection Hex as <-.
    exists i', msg'. repeat split; done.
  - intros (i & msg & Hi & Hrole & Hmeta & Htext). exists (i, msg). split.
    + by apply (elem_of_lookup_imap_2 pair).
    + simpl. rewrite exchange_at_human by (by apply String.eqb_eq).
      f_equal. destruct d as [text meta]. simpl in *. by subst.
Qed.

(** C10: the string [chat] returns is the content of the ['AIMessage']
    that ends the history after the turn, and the text that follows
    ["Assistant: "] in the one document the turn added to the index. *)
Theorem chat_answer_is_recorded (user_input answer : string) (s s' : State) :
  chat env pickle_path user_input s = (Returns answer, s') ->
  last (conversation_history s') = Some (mkMessage "AIMessage" answer)
  /\ exists doc,
       vectorstore s' = vectorstore s ++ [doc]
       /\ page_content doc
          = ("Human: " +:+ user_input +:+ nl +:+ "Assistant: ") +:+ answer.
Proof.
  intros Hchat. apply chat_returns in Hchat as (Hh & Hv & _). split.
  - rewrite Hh.
    change [mkMessage "HumanMessage" user_input; mkMessage "AIMessage" answer]
      with ([mkMessage "HumanMessage" user_input] ++ [mkMessage "AIMessage" answer]).
    by rewrite app_assoc, last_snoc.
  - exists (exchange_document user_input answer). split; [done|].
    unfold exchange_document, Document_of, combined_text; simpl.
    by rewrite !string_append_assoc.
Qed.

End Properties.

(** ** Turns, starts and restarts *)

Section Sessions.

Context (env : Env).
Context `{PickleHistory : Pickle (list Message)}.
Variable pickle_path : string.

Lemma turns_head_human qs answers m :
  head (turns qs answers) = Some m -> String.eqb (role m) "AIMessage" = false.
Proof.
  destruct qs as [|q qs], answers as [|a answers]; simpl; try done.
  by intros [= <-].
Qed.

(** X1: whatever its outcome, [chat] only appends to the history and to
    the index, writes no file but the history file, and prints nothing;
    and when the chain fails nothing at all has changed. *)
Theorem chat_only_appends (user_input : string) (s : State) :
  conversation_history s
    `prefix_of` conversation_history (snd (chat env pickle_path user_input s))
  /\ vectorstore s `prefix_of` vectorstore (snd (chat env pickle_path user_input s))
  /\ (forall p, p <> pickle_path ->
                disk (snd (chat env pickle_path user_input s)) !! p = disk s !! p)
  /\ stdout (snd (chat env pickle_path user_input s)) = stdout s
  /\ (forall e,
        chain_answer env user_input (vectorstore s) (memory s) = Raises e ->
        chat env pickle_path user_input s = (Raises e, s)).
Proof.
  assert (Hfail : forall e,
             chain_answer env user_input (vectorstore s) (memory s) = Raises e ->
             chat env pickle_path user_input s = (Raises e, s)).
  { intros e He. by rewrite chat_unfold, He. }
  destruct (chat_state env pickle_path user_input s)
    as [-> | (answer & _ & [-> | (bytes & ->)])]; simpl.
  - done.
  - repeat split; try done; try reflexivity; by apply prefix_app_r.
  - repeat split; try done; try (by apply prefix_app_r).
    intros p Hp. by rewrite lookup_insert_ne.
Qed.

(** X2: after a run of one or more turns that all returned, the history
    file holds the whole history of the bot: [_load_pickle] gives it
    back, the turns of before the run included. *)
Theorem returned_turns_are_persisted (qs answers : list string) (s s' : State) :
  qs <> [] ->
  chats env pickle_path qs s = (Returns answers, s') ->
  _load_pickle pickle_path s' = (Returns (conversation_history s'), s')
  /\ conversation_history s' = conversation_history s ++ turns qs answers.
Proof.
  intros Hne Hrun. apply chats_returns in Hrun as (_ & Hh & _ & Hd).
  split; [|done].
  rewrite _load_pickle_unfold, (Hd Hne). by rewrite loads_dumps.
Qed.

(** X3: the document [chat] adds for a turn is the one the start-up
    indexing computes for that turn.  After a run of returning turns the
    documents of the history are those of the history before the run
    followed by the documents the run added; an index that held exactly
    the documents of the history still does. *)
Theorem turn_documents_match_startup_indexing
    (qs answers : list string) (s s' : State) :
  chats env pickle_path qs s = (Returns answers, s') ->
  exchange_documents (conversation_history s')
  = exchange_documents (conversation_history s)
      ++ zip_with exchange_document qs answers
  /\ (vectorstore s = exchange_documents (conversation_history s) ->
      vectorstore s' = exchange_documents (conversation_history s')).
Proof.
  intros Hrun. apply chats_returns in Hrun as (_ & Hh & Hv & _).
  assert (Hdocs : exchange_documents (conversation_history s')
                  = exchange_documents (conversation_history s)
                      ++ zip_with exchange_document qs answers).
  { rewrite Hh, exchange_documents_app, exchange_documents_turns; [done|].
    apply turns_head_human. }
  split; [done|]. intros Hidx. by rewrite Hdocs, Hv, Hidx.
Qed.

(** X4: a restart after [N >= 1] returning turns from an empty history
    and an empty index loads the [2N] messages and indexes every exchange
    a second time: the index is its former content twice over, [2N]
    documents. *)
Theorem restart_after_turns_doubles_index (qs answers : list string) (s s1 : State) :
  conversation_history s = [] ->
  vectorstore s = [] ->
  qs <> [] ->
  chats env pickle_path qs s = (Returns answers, s1) ->
  index_accepts env (vectorstore s1) (vectorstore s1) = true ->
  __init__ env pickle_path s1
  = (Returns tt,
     mkState (conversation_history s1) (to_chat_message <$> conversation_history s1)
       (vectorstore s1 ++ vectorstore s1) (disk s1) (stdout s1))
  /\ length (conversation_history s1) = 2 * length qs
  /\ length (vectorstore s1 ++ vectorstore s1) = 2 * length qs.
Proof.
  intros Hh0 Hv0 Hne Hrun Hacc.
  pose proof (chats_returns env pickle_path _ _ _ _ Hrun) as (Hlen & Hh & Hv & Hd).
  rewrite Hh0 in Hh. rewrite Hv0 in Hv. simpl in Hh, Hv.
  assert (Hdocs : exchange_documents (conversation_history s1) = vectorstore s1).
  { by rewrite Hh, Hv, exchange_documents_turns. }
  assert (Hvlen : length (vectorstore s1) = length qs).
  { rewrite Hv, length_zip_with. lia. }
  split; [|split].
  - rewrite init_unfold, (Hd Hne), loads_dumps, Hdocs.
    destruct (vectorstore s1) as [|d docs] eqn:E.
    + destruct qs; [done|]. simpl in Hvlen. lia.
    + by rewrite Hacc.
  - rewrite Hh. clear -Hlen. revert answers Hlen.
    induction qs as [|q qs IH]; intros [|a answers] Hlen; simpl in *; try done.
    unfold turns in *. simpl. rewrite IH by lia. lia.
  - rewrite length_app. lia.
Qed.

(** X5: the edge cases of a start.  With no history file the bot starts
    empty and the index is not touched; with a history file that
    [pickle] cannot read the construction raises and nothing has changed;
    with a history that holds no ['HumanMessage'] the history is loaded
    and nothing is indexed, whatever the index would have accepted. *)
Theorem init_edge_cases (s : State) :
  (disk s !! pickle_path = None ->
   __init__ env pickle_path s
   = (Returns tt, mkState [] [] (vectorstore s) (disk s) (stdout s)))
  /\ (forall bytes,
        disk s !! pickle_path = Some bytes ->
        loads (A := list Message) bytes = None ->
        __init__ env pickle_path s = (Raises UnpicklingError, s))
  /\ (forall bytes h,
        disk s !! pickle_path = Some bytes ->
        loads bytes = Some h ->
        Forall (fun m => role m <> "HumanMessage") h ->
        __init__ env pickle_path s
        = (Returns tt,
           mkState h (AIMessage ∘ content <$> h) (vectorstore s) (disk s) (stdout s))).
Proof.
  split; [|split].
  - intros Hnone. by rewrite init_unfold, Hnone.
  - intros bytes Hfile Hbad. by rewrite init_unfold, Hfile, Hbad.
  - intros bytes h Hfile Hload Hnohuman.
    rewrite init_unfold, Hfile, Hload.
    assert (Hnil : exchange_documents h = []).
    { apply length_zero_iff_nil. rewrite exchange_documents_length.
      clear -Hnohuman. induction Hnohuman as [|m h Hm _ IH]; [done|].
      rewrite filter_cons, decide_False; [done|].
      intros Heq. by apply String.eqb_eq in Heq. }
    rewrite Hnil.
    assert (Hmem : to_chat_message <$> h = AIMessage ∘ content <$> h);
      [|by rewrite Hmem].
    apply Forall_fmap_ext_1. eapply Forall_impl; [exact Hnohuman|].
    intros m Hm. unfold to_chat_message, compose.
    destruct (String.eqb (role m) "HumanMessage") eqn:E; [|done].
    by apply String.eqb_eq in E.
Qed.

Lemma init_establishes_state s :
  fst (__init__ env pickle_path s) = Returns tt ->
  persisted pickle_path (snd (__init__ env pickle_path s))
  /\ mirrored (snd (__init__ env pickle_path s)).
Proof.
  rewrite init_unfold. unfold persisted, mirrored.
  destruct (disk s !! pickle_path) as [bytes|] eqn:Hfile.
  - destruct (loads bytes) as [h|] eqn:Hload; [|done].
    destruct (exchange_documents h) as [|d docs].
    + simpl. intros _. split; [|done].
      by rewrite _load_pickle_unfold; simpl; rewrite Hfile, Hload.
    + destruct (index_accepts env _ _); simpl; [|done].
      intros _. split; [|done].
      by rewrite _load_pickle_unfold; simpl; rewrite Hfile, Hload.
  - simpl. intros _. split; [|done].
    by rewrite _load_pickle_unfold; simpl; rewrite Hfile.
Qed.

(** X6: whatever its outcome, [__init__] writes nothing to the disk,
    prints nothing and only appends to the index; and when it returns,
    the history file still holds the history the bot now has and the
    memory of the chain holds that history message for message, a
    ['HumanMessage'] as a Human message and any other role as an AI
    message. *)
Theorem init_establishes_invariants (s : State) :
  disk (snd (__init__ env pickle_path s)) = disk s
  /\ stdout (snd (__init__ env pickle_path s)) = stdout s
  /\ vectorstore s `prefix_of` vectorstore (snd (__init__ env pickle_path s))
  /\ (fst (__init__ env pickle_path s) = Returns tt ->
      persisted pickle_path (snd (__init__ env pickle_path s))
      /\ mirrored (snd (__init__ env pickle_path s))).
Proof.
  rewrite init_unfold. unfold persisted, mirrored.
  destruct (disk s !! pickle_path) as [bytes|] eqn:Hfile.
  - destruct (loads bytes) as [h|] eqn:Hload; [|done].
    destruct (exchange_documents h) as [|d docs].
    + simpl. repeat split; try done.
      by rewrite _load_pickle_unfold; simpl; rewrite Hfile, Hload.
    + destruct (index_accepts env _ _); simpl; [|done].
      repeat split; try done; [by apply prefix_app_r|].
      by rewrite _load_pickle_unfold; simpl; rewrite Hfile, Hload.
  - simpl. repeat split; try done.
    by rewrite _load_pickle_unfold; simpl; rewrite Hfile.
Qed.

(** X7: [chat] keeps the memory of the chain in step with the history:
    when the memory held the history message for message before the
    call, it does after it, whether the call returned or raised. *)
Theorem chat_keeps_memory_mirrored (user_input : string) (s : State) :
  mirrored s -> mirrored (snd (chat env pickle_path user_input s)).
Proof.
  unfold mirrored. intros Hm.
  destruct (chat_state env pickle_path user_input s)
    as [-> | (answer & _ & [-> | (bytes & ->)])]; simpl; [done| |];
    by rewrite fmap_app, Hm.
Qed.

End Sessions.

(** ** Ingestion *)

Lemma list_ascii_of_string_app (s1 s2 : string) :
  String.list_ascii_of_string (s1 +:+ s2)
  = String.list_ascii_of_string s1 ++ String.list_ascii_of_string s2.
Proof.
  induction s1 as [|c s1 IH]; [done|].
  change (c :: String.list_ascii_of_string (s1 +:+ s2)
          = c :: (String.list_ascii_of_string s1 ++ String.list_ascii_of_string s2)).
  by rewrite IH.
Qed.

Lemma string_of_list_ascii_app (l1 l2 : list Ascii.ascii) :
  String.string_of_list_ascii (l1 ++ l2)
  = String.string_of_list_ascii l1 +:+ String.string_of_list_ascii l2.
Proof.
  induction l1 as [|c l1 IH]; [done|].
  change (String c (String.string_of_list_ascii (l1 ++ l2))
          = String c (String.string_of_list_ascii l1 +:+ String.string_of_list_ascii l2)).
  by rewrite IH.
Qed.

(** [endswith] is the suffix test. *)
Lemma endswith_app (stem suffix : string) : endswith (stem +:+ suffix) suffix = true.
Proof.
  unfold endswith.
  rewrite <- !length_list_ascii_of_string, list_ascii_of_string_app, length_app.
  rewrite decide_True by lia. apply String.eqb_eq.
  rewrite substring_take_drop, list_ascii_of_string_app.
  replace (length (String.list_ascii_of_string stem)
           + length (String.list_ascii_of_string suffix)
           - length (String.list_ascii_of_string suffix))
    with (length (String.list_ascii_of_string stem)) by lia.
  rewrite drop_app_length, firstn_all.
  apply String.string_of_list_ascii_of_string.
Qed.

Lemma endswith_true (s suffix : string) :
  endswith s suffix = true -> exists stem, s = stem +:+ suffix.
Proof.
  unfold endswith. case_decide as Hlen; [|done]. intros Heq%String.eqb_eq.
  rewrite substring_take_drop in Heq.
  rewrite <- !length_list_ascii_of_string in *.
  set (l := String.list_ascii_of_string s) in *.
  set (k := length l - length (String.list_ascii_of_string suffix)) in *.
  rewrite take_ge in Heq by (rewrite length_drop; lia).
  exists (String.string_of_list_ascii (take k l)).
  rewrite <- Heq, <- string_of_list_ascii_app, take_drop.
  symmetry. apply String.string_of_list_ascii_of_string.
Qed.

(** Two suffixes of the same length that differ are never suffixes of
    the same string. *)
Lemma endswith_exclusive (stem suffix other : string) :
  String.length other <= String.length suffix ->
  (forall l, String.list_ascii_of_string suffix
             <> l ++ String.list_ascii_of_string other) ->
  endswith (stem +:+ suffix) other = false.
Proof.
  intros Hlen Hdiff.
  destruct (endswith (stem +:+ suffix) other) eqn:E; [|done].
  apply endswith_true in E as [stem' E].
  apply (f_equal String.list_ascii_of_string) in E.
  rewrite !list_ascii_of_string_app in E.
  rewrite <- !length_list_ascii_of_string in Hlen.
  set (lo := String.list_ascii_of_string other) in *.
  set (ls := String.list_ascii_of_string suffix) in *.
  pose proof (take_drop (length ls - length lo) ls) as Hsplit.
  rewrite <- Hsplit, app_assoc in E.
  apply app_inj_2 in E as [_ E]; [|rewrite length_drop; lia].
  exfalso. apply (Hdiff (take (length ls - length lo) ls)).
  etrans; [symmetry; exact Hsplit|]. by f_equal.
Qed.

Section Ingestion.

Context (env : Env).

(** X8: the loader is chosen by the end of the path alone: the PDF
    loader exactly for the paths that end in [.pdf], the Word loader
    exactly for those that end in [.docx], the text loader for all
    others, silently for those that end in [.txt]. *)
Theorem select_loader_by_extension (doc_path : string) (s : State) :
  (fst (select_loader doc_path s) = Returns PyPDFLoader
   <-> exists stem, doc_path = stem +:+ ".pdf")
  /\ (fst (select_loader doc_path s) = Returns Docx2txtLoader
      <-> exists stem, doc_path = stem +:+ ".docx")
  /\ ((exists stem, doc_path = stem +:+ ".txt") ->
      select_loader doc_path s = (Returns TextLoader, s)).
Proof.
  unfold select_loader. split; [|split].
  - split.
    + destruct (endswith doc_path ".txt"); [done|].
      destruct (endswith doc_path ".pdf") eqn:E; [intros _; by apply endswith_true|].
      by destruct (endswith doc_path ".docx").
    + intros [stem ->].
      rewrite (endswith_exclusive stem ".pdf" ".txt"), endswith_app; [done|simpl; lia|].
      intros [|? [|? [|? [|? [|? ?]]]]]; done.
  - split.
    + destruct (endswith doc_path ".txt"); [done|].
      destruct (endswith doc_path ".pdf"); [done|].
      destruct (endswith doc_path ".docx") eqn:E; [intros _; by apply endswith_true|].
      done.
    + intros [stem ->].
      rewrite (endswith_exclusive stem ".docx" ".txt"),
        (endswith_exclusive stem ".docx" ".pdf"), endswith_app;
        [done|simpl; lia| |simpl; lia|];
        intros [|? [|? [|? [|? [|? [|? ?]]]]]]; done.
  - intros [stem ->]. by rewrite endswith_app.
Qed.

Lemma select_loader_state doc_path s :
  exists loader out,
    select_loader doc_path s = (Returns loader, set_stdout (stdout s ++ out) s).
Proof.
  assert (Hs : s = set_stdout (stdout s ++ []) s).
  { destruct s; unfold set_stdout; simpl. by rewrite app_nil_r. }
  unfold select_loader.
  destruct (endswith doc_path ".txt"); [exists TextLoader, []; by rewrite <- Hs|].
  destruct (endswith doc_path ".pdf"); [exists PyPDFLoader, []; by rewrite <- Hs|].
  destruct (endswith doc_path ".docx"); [exists Docx2txtLoader, []; by rewrite <- Hs|].
  by exists TextLoader, [unsupported_warning].
Qed.

Lemma add_a_document_unfold doc_path s :
  exists loader out,
    select_loader doc_path s = (Returns loader, set_stdout (stdout s ++ out) s)
    /\ add_a_document env doc_path s
       = (Returns tt,
          match load_file env loader doc_path with
          | Returns documents =>
              if index_accepts env (vectorstore s) (split_documents env documents)
              then set_stdout
                     (stdout s
                        ++ out
                        ++ ["Successfully added "
                              +:+ pretty (length (split_documents env documents))
                              +:+ " document chunks to vector store."])
                     (set_vectorstore (vectorstore s ++ split_documents env documents) s)
              else set_stdout
                     (stdout s
                        ++ out
                        ++ ["Error loading document: " +:+ str_of_exn VectorStoreError])
                     s
          | Raises e =>
              set_stdout
                (stdout s ++ out ++ ["Error loading document: " +:+ str_of_exn e]) s
          end).
Proof.
  destruct (select_loader_state doc_path s) as (loader & out & Hsel).
  exists loader, out. split; [done|].
  unfold add_a_document, try_except. unfold bind at 1. rewrite Hsel.
  unfold loader_load.
  destruct (load_file env loader doc_path) as [documents|e]; simpl.
  - unfold add_documents_to, bind, get, ret, raise, print, modify; simpl.
    destruct (index_accepts env (vectorstore s) (split_documents env documents)); simpl;
      unfold set_stdout, set_vectorstore; simpl; by rewrite <- app_assoc.
  - unfold raise, print, modify, set_stdout; simpl. by rewrite <- app_assoc.
Qed.

(** X9: the ['add a document'] command never raises and never touches
    the history, the memory of the chain or the disk; it only adds lines
    to the output.  The index is extended by what the splitter returned
    for the documents the chosen loader read, when the loader returned
    and the index took them, and is left as it was in every other
    case. *)
Theorem add_a_document_outcome (doc_path : string) (s : State) :
  fst (add_a_document env doc_path s) = Returns tt
  /\ conversation_history (snd (add_a_document env doc_path s)) = conversation_history s
  /\ memory (snd (add_a_document env doc_path s)) = memory s
  /\ disk (snd (add_a_document env doc_path s)) = disk s
  /\ stdout s `prefix_of` stdout (snd (add_a_document env doc_path s))
  /\ exists loader,
       fst (select_loader doc_path s) = Returns loader
       /\ vectorstore (snd (add_a_document env doc_path s))
          = match load_file env loader doc_path with
            | Returns documents =>
                if index_accepts env (vectorstore s) (split_documents env documents)
                then vectorstore s ++ split_documents env documents
                else vectorstore s
            | Raises _ => vectorstore s
            end.
Proof.
  destruct (add_a_document_unfold doc_path s) as (loader & out & Hsel & Hrun).
  rewrite Hrun, Hsel. simpl.
  destruct (load_file env loader doc_path) as [documents|e] eqn:Hload;
    [destruct (index_accepts env (vectorstore s) (split_documents env documents))
       eqn:Hacc|];
    simpl; repeat split; try done;
    try (by apply prefix_app_r);
    exists loader; by rewrite Hload, ?Hacc.
Qed.

Lemma attach_metadata_lookup doc_objects metadatas i d :
  attach_metadata doc_objects metadatas !! i = Some d ->
  exists d0,
    doc_objects !! i = Some d0
    /\ page_content d = page_content d0
    /\ metadata d = default (metadata d0) (metadatas !! i).
Proof.
  revert metadatas i. induction doc_objects as [|doc docs IH];
    intros [|metadata rest] [|i]; simpl; try done.
  - intros [= <-]. eauto.
  - intros Hd. by exists d.
  - intros [= <-]. eauto.
  - apply IH.
Qed.

Lemma attach_metadata_contents doc_objects metadatas :
  page_content <$> attach_metadata doc_objects metadatas
  = page_content <$> doc_objects.
Proof.
  revert metadatas. induction doc_objects as [|doc docs IH];
    intros [|metadata rest]; simpl; try done.
  by rewrite IH.
Qed.

(** X10: [add_documents] adds one document for each text, in order,
    whatever the list of metadata: the [i]-th document has the [i]-th
    metadata when there is one and none otherwise, and metadata beyond
    the texts are dropped.  The count it prints is the number of
    documents it added. *)
Theorem add_documents_pairs_metadata (documents : list string)
    (metadatas : option (list (list (string * string)))) (s : State) :
  exists docs,
    page_content <$> docs = documents
    /\ (forall i d, docs !! i = Some d ->
                    metadata d = default [] (default [] metadatas !! i))
    /\ add_documents env documents metadatas s
       = if index_accepts env (vectorstore s) docs
         then (Returns tt,
               set_stdout
                 (stdout s ++ ["Added " +:+ pretty (length docs)
                                 +:+ " documents to vector store."])
                 (set_vectorstore (vectorstore s ++ docs) s))
         else (Raises VectorStoreError, s).
Proof.
  exists (attach_metadata (Document_of <$> documents) (default [] metadatas)).
  assert (Hcontents : page_content <$> (Document_of <$> documents) = documents).
  { rewrite <- list_fmap_compose. rewrite <- (list_fmap_id documents) at 2.
    by apply list_fmap_ext. }
  split; [by rewrite attach_metadata_contents|]. split.
  - intros i d Hd.
    apply attach_metadata_lookup in Hd as (d0 & Hd0 & _ & ->).
    rewrite list_lookup_fmap in Hd0.
    destruct (documents !! i); [|done]. by injection Hd0 as <-.
  - assert (Hlen : length (attach_metadata (Document_of <$> documents)
                             (default [] metadatas)) = length documents).
    { rewrite <- (length_fmap page_content), attach_metadata_contents.
      by rewrite length_fmap, length_fmap. }
    rewrite Hlen.
    assert (Hdocs :
      match metadatas with
      | Some ((_ :: _) as ms) => attach_metadata (Document_of <$> documents) ms
      | _ => Document_of <$> documents
      end = attach_metadata (Document_of <$> documents) (default [] metadatas)).
    { destruct metadatas as [[|m ms]|]; simpl; try done;
        by destruct (Document_of <$> documents). }
    unfold add_documents. rewrite Hdocs.
    unfold add_documents_to, bind, get, print, modify, raise; simpl.
    by destruct (index_accepts env _ _).
Qed.

End Ingestion.

(** ** The saved memory of [rag_astrobot.py] *)

(** X11: what [_serialize_messages] writes, [_deserialize_messages]
    reads back: the same messages in the same order. *)
Theorem deserialize_serialize_messages (messages : list ChatMessage) :
  _deserialize_messages (_serialize_messages messages) = messages.
Proof.
  unfold _deserialize_messages, _serialize_messages.
  rewrite <- list_fmap_compose. rewrite <- (list_fmap_id messages) at 2.
  apply list_fmap_ext. by intros _ [text|text] _.
Qed.

(** X12: in the other direction the contents and the order are kept but
    every role other than ['HumanMessage'] comes back as ['AIMessage'];
    the saved list is given back unchanged exactly when each of its roles
    is one of the two. *)
Theorem serialize_deserialize_messages (data : list (string * string)) :
  _serialize_messages (_deserialize_messages data)
  = (fun rc => (if String.eqb (fst rc) "HumanMessage"
                then "HumanMessage" else "AIMessage", snd rc)) <$> data
  /\ (_serialize_messages (_deserialize_messages data) = data
      <-> Forall (fun rc => fst rc = "HumanMessage" \/ fst rc = "AIMessage") data).
Proof.
  assert (Hmap : _serialize_messages (_deserialize_messages data)
                 = (fun rc => (if String.eqb (fst rc) "HumanMessage"
                               then "HumanMessage" else "AIMessage", snd rc)) <$> data).
  { unfold _deserialize_messages, _serialize_messages.
    rewrite <- list_fmap_compose. apply list_fmap_ext.
    intros _ [r c] _. simpl. by destruct (String.eqb r "HumanMessage"). }
  split; [done|]. rewrite Hmap. clear Hmap.
  induction data as [|[r c] data IH]; [done|]. simpl.
  rewrite Forall_cons. simpl. split.
  - intros [= Hr Hdata]. split; [|by apply IH].
    destruct (String.eqb r "HumanMessage") eqn:E; [|by right].
    left. by apply String.eqb_eq.
  - intros [Hr Hdata]. f_equal; [|by apply IH]. f_equal.
    destruct Hr as [-> | ->]; done.
Qed.

Section SavedMemory.

Context `{PickleSaved : Pickle (list (string * string))}.

(** X13: a memory file that holds the pickle of
    [_serialize_messages(messages)], as the script writes it on exit,
    makes the next start set the memory to exactly [messages]; an empty
    memory comes back empty. *)
Theorem load_memory_restores_saved (memory_file : string)
    (messages : list ChatMessage) (s : State) :
  disk s !! memory_file = Some (dumps (_serialize_messages messages)) ->
  load_memory memory_file s = (Returns tt, set_memory messages s).
Proof.
  intros Hfile.
  rewrite load_memory_unfold, Hfile, loads_dumps.
  do 2 f_equal. unfold _deserialize_messages, _serialize_messages.
  rewrite <- list_fmap_compose. rewrite <- (list_fmap_id messages) at 2.
  apply list_fmap_ext. by intros _ [text|text] _.
Qed.

End SavedMemory.

(** ** The command loop *)

Section LoopFacts.

Context (env : Env).
Context `{PickleHistory : Pickle (list Message)}.
Variable pickle_path : string.

Lemma extends_refl s : extends pickle_path s s.
Proof. by repeat split. Qed.

Lemma extends_trans s1 s2 s3 :
  extends pickle_path s1 s2 -> extends pickle_path s2 s3 -> extends pickle_path s1 s3.
Proof.
  intros (Hh & Hv & Ho & Hd) (Hh' & Hv' & Ho' & Hd'). repeat split.
  - by etrans.
  - by etrans.
  - by etrans.
  - intros p Hp. by rewrite Hd', Hd.
Qed.

Lemma extends_print s out : extends pickle_path s (set_stdout (stdout s ++ out) s).
Proof. repeat split; try done. by apply prefix_app_r. Qed.

Lemma extends_chat user_input s :
  extends pickle_path s (snd (chat env pickle_path user_input s)).
Proof.
  destruct (chat_state env pickle_path user_input s)
    as [-> | (answer & _ & [-> | (bytes & ->)])]; simpl.
  - apply extends_refl.
  - repeat split; try done; by apply prefix_app_r.
  - repeat split; try done; try (by apply prefix_app_r).
    intros p Hp. simpl. by rewrite lookup_insert_ne.
Qed.

Lemma extends_add_a_document doc_path s :
  extends pickle_path s (snd (add_a_document env doc_path s)).
Proof.
  destruct (add_a_document_unfold env doc_path s) as (loader & out & _ & ->).
  simpl.
  destruct (load_file env loader doc_path) as [documents|e];
    [destruct (index_accepts env (vectorstore s) (split_documents env documents))|];
    repeat split; try done; by apply prefix_app_r.
Qed.

Lemma mirrored_add_a_document doc_path s :
  mirrored s -> mirrored (snd (add_a_document env doc_path s)).
Proof.
  destruct (add_a_document_unfold env doc_path s) as (loader & out & _ & ->).
  simpl.
  destruct (load_file env loader doc_path) as [documents|e];
    [destruct (index_accepts env (vectorstore s) (split_documents env documents))|];
    done.
Qed.

Lemma mirrored_chat user_input s :
  mirrored s -> mirrored (snd (chat env pickle_path user_input s)).
Proof.
  unfold mirrored. intros Hm.
  destruct (chat_state env pickle_path user_input s)
    as [-> | (answer & _ & [-> | (bytes & ->)])]; simpl; [done| |];
    by rewrite fmap_app, Hm.
Qed.

(** Whether the history file holds the history depends on the disk and
    on the history alone. *)
Lemma persisted_same s s' :
  disk s' = disk s ->
  conversation_history s' = conversation_history s ->
  persisted pickle_path s -> persisted pickle_path s'.
Proof.
  unfold persisted. rewrite !_load_pickle_unfold. intros -> ->.
  destruct (disk s !! pickle_path) as [bytes|]; [|done].
  by destruct (loads bytes).
Qed.

Lemma persisted_add_a_document doc_path s :
  persisted pickle_path s ->
  persisted pickle_path (snd (add_a_document env doc_path s)).
Proof.
  apply persisted_same;
    destruct (add_a_document_unfold env doc_path s) as (loader & out & _ & ->);
    simpl;
    (destruct (load_file env loader doc_path) as [documents|e];
     [destruct (index_accepts env (vectorstore s) (split_documents env documents))|]);
    done.
Qed.

Lemma persisted_chat user_input s answer s' :
  chat env pickle_path user_input s = (Returns answer, s') ->
  persisted pickle_path s'.
Proof.
  intros (_ & _ & Hd)%chat_returns. unfold persisted.
  by rewrite _load_pickle_unfold, Hd, loads_dumps.
Qed.

(** One round of the loop. *)
Lemma chat_loop_cons user_input rest s :
  chat_loop env pickle_path (user_input :: rest) s =
  let s0 := set_stdout (stdout s ++ [nl +:+ "Query: "]) s in
  if bool_decide (lower user_input ∈ exit_keywords) then
    (Returns Exited, set_stdout (stdout s0 ++ [farewell]) s0)
  else if String.eqb (lower user_input) "add a document" then
    let s1 := set_stdout (stdout s0 ++ ["Enter document path: "]) s0 in
    match rest with
    | [] => (Returns EndOfInput, s1)
    | doc_path :: rest' =>
        chat_loop env pickle_path rest' (snd (add_a_document env doc_path s1))
    end
  else
    match chat env pickle_path user_input s0 with
    | (Returns response, s1) =>
        chat_loop env pickle_path rest
          (set_stdout (stdout s1 ++ [nl +:+ "Astro Bot: " +:+ response]) s1)
    | (Raises e, s1) => (Raises e, s1)
    end.
Proof.
  simpl. unfold bind at 1, print at 1, modify at 1.
  destruct (bool_decide (lower user_input ∈ exit_keywords)); [done|].
  destruct (String.eqb (lower user_input) "add a document").
  - destruct rest as [|doc_path rest']; [done|].
    unfold bind at 1, print at 1, modify at 1. unfold bind at 1.
    cbn [stdout set_stdout].
    match goal with
    | |- context [add_a_document env doc_path ?x] =>
        destruct (add_a_document_returns env doc_path x) as [s2 Hs2]
    end.
    by rewrite !Hs2.
  - unfold bind at 1.
    by destruct (chat env pickle_path user_input _) as [[response|e] s1].
Qed.

Lemma chat_loop_nil s :
  chat_loop env pickle_path [] s
  = (Returns EndOfInput, set_stdout (stdout s ++ [nl +:+ "Query: "]) s).
Proof. done. Qed.

Lemma chat_loop_invariants n :
  forall lines s,
    length lines <= n ->
    extends pickle_path s (snd (chat_loop env pickle_path lines s))
    /\ (mirrored s -> mirrored (snd (chat_loop env pickle_path lines s)))
    /\ (persisted pickle_path s ->
        forall e, fst (chat_loop env pickle_path lines s) = Returns e ->
                  persisted pickle_path (snd (chat_loop env pickle_path lines s))).
Proof.
  induction n as [|n IH]; intros [|user_input rest] s Hlen; simpl in Hlen; try lia.
  - rewrite chat_loop_nil. split; [apply extends_print|]. split; [done|].
    intros Hp e _. by apply (persisted_same s).
  - rewrite chat_loop_nil. split; [apply extends_print|]. split; [done|].
    intros Hp e _. by apply (persisted_same s).
  - rewrite chat_loop_cons. cbv zeta.
    set (s0 := set_stdout (stdout s ++ [nl +:+ "Query: "]) s).
    assert (H0 : extends pickle_path s s0) by apply extends_print.
    destruct (bool_decide (lower user_input ∈ exit_keywords)).
    { simpl. split; [|split].
      - eapply extends_trans; [exact H0|apply extends_print].
      - done.
      - intros Hp e _. by apply (persisted_same s). }
    destruct (String.eqb (lower user_input) "add a document").
    { set (s1 := set_stdout (stdout s0 ++ ["Enter document path: "]) s0).
      assert (H1 : extends pickle_path s s1)
        by (eapply extends_trans; [exact H0|apply extends_print]).
      destruct rest as [|doc_path rest'].
      - simpl. split; [done|]. split; [done|].
        intros Hp e _. by apply (persisted_same s).
      - simpl in Hlen.
        destruct (IH rest' (snd (add_a_document env doc_path s1)) ltac:(lia))
          as (Hext & Hmir & Hper).
        split; [|split].
        + eapply extends_trans; [exact H1|].
          eapply extends_trans; [apply extends_add_a_document|exact Hext].
        + intros Hm. apply Hmir. by apply mirrored_add_a_document.
        + intros Hp e He. apply (Hper (persisted_add_a_document _ _
                                        (persisted_same s s1 eq_refl eq_refl Hp)) e He). }
    pose proof (extends_chat user_input s0) as Hc.
    pose proof (mirrored_chat user_input s0) as Hmc.
    destruct (chat env pickle_path user_input s0) as [[response|e] s1] eqn:Hchat.
    + simpl in Hc, Hmc.
      set (s2 := set_stdout (stdout s1 ++ [nl +:+ "Astro Bot: " +:+ response]) s1).
      destruct (IH rest s2 ltac:(lia)) as (Hext & Hmir & Hper).
      split; [|split].
      * eapply extends_trans; [exact H0|].
        eapply extends_trans; [exact Hc|].
        eapply extends_trans; [apply extends_print|exact Hext].
      * intros Hm. apply Hmir. by apply Hmc.
      * intros _ e He. apply (Hper (persisted_same s1 s2 eq_refl eq_refl
                                       (persisted_chat _ _ _ _ Hchat)) e He).
    + simpl in *. split; [|split].
      * eapply extends_trans; [exact H0|exact Hc].
      * intros Hm. by apply Hmc.
      * intros _ e' He. done.
Qed.

(** X14: whatever the user types and however the loop ends, a session
    only appends: the history and the index it started with are still
    the beginning of what it holds, no file but the history file was
    written, and the memory of the chain, when it held the history
    message for message at the start, still does. *)
Theorem chat_loop_only_appends (lines : list string) (s : State) :
  extends pickle_path s (snd (chat_loop env pickle_path lines s))
  /\ (mirrored s -> mirrored (snd (chat_loop env pickle_path lines s))).
Proof.
  destruct (chat_loop_invariants (length lines) lines s (le_n _)) as (H1 & H2 & _).
  by split.
Qed.

End LoopFacts.

(** X15: when the script ends without an exception, by an exit keyword
    or at the end of its input, the history file holds exactly the
    history of the bot, and the memory of the chain holds it message for
    message: the next start finds the conversation as it was left. *)
Theorem main_end_is_persisted (env : Env) `{PickleHistory : Pickle (list Message)}
    (lines : list string) (s s' : State) (e : loop_end) :
  main env lines s = (Returns e, s') ->
  persisted "conversation_memory.pkl" s'
  /\ mirrored s'
  /\ _load_pickle "conversation_memory.pkl" s' = (Returns (conversation_history s'), s').
Proof.
  unfold main. unfold bind at 1.
  pose proof (init_establishes_state env "conversation_memory.pkl" s) as Hinit.
  destruct (__init__ env "conversation_memory.pkl" s) as [[[]|e0] s0]; [|done].
  destruct (Hinit eq_refl) as [Hper Hmir].
  unfold bind at 1, print at 1, modify at 1.
  set (s1 := set_stdout (stdout s0 ++ [banner]) s0).
  intros Hloop.
  destruct (chat_loop_invariants env "conversation_memory.pkl"
              (length lines) lines s1 (le_n _)) as (_ & Hm & Hp).
  rewrite Hloop in Hm, Hp. simpl in Hm, Hp.
  assert (Hfinal : persisted "conversation_memory.pkl" s').
  { apply (Hp (persisted_same _ s0 s1 eq_refl eq_refl Hper) e eq_refl). }
  split; [done|]. split; [by apply Hm|].
  unfold persisted in Hfinal. rewrite _load_pickle_unfold in *.
  destruct (disk s' !! "conversation_memory.pkl") as [bytes|];
    [destruct (loads bytes)|]; simpl in Hfinal; by inversion Hfinal.
Qed.

(** ** The two models of the load *)


(** ** The model at work: runs on the concrete worlds *)

Import Framed Worlds.

(** C1 fails on the code: one turn from a first start, then a restart.
    Before the restart the one exchange of the history is in the index
    once; the restart loads the history, indexes it again, and the
    exchange is in the index twice. *)
Lemma restart_indexes_exchange_twice :
  fst (__init__ cooperative memory_pkl first_run) = Returns tt
  /\ conversation_history first_run = hello
  /\ conversation_history restarted = hello
  /\ occurrences (exchange_document "hello" "re: hello") (vectorstore first_run) = 1
  /\ occurrences (exchange_document "hello" "re: hello") (vectorstore restarted) = 2
  /\ ~ (forall d, d ∈ exchange_documents (conversation_history restarted) ->
                  occurrences d (vectorstore restarted) = 1).
Proof.
  repeat split; try (vm_compute; reflexivity).
  intros Honce.
  specialize (Honce (exchange_document "hello" "re: hello")).
  assert (Hd : exchange_document "hello" "re: hello"
               ∈ [exchange_document "hello" "re: hello"]) by constructor.
  apply Honce in Hd. vm_compute in Hd. discriminate Hd.
Qed.

(** The start on what a first run left: the history file with one
    exchange and its document in the index. *)
Lemma init_reindexes_loaded_history_witness :
  __init__ cooperative memory_pkl after_first_run
  = (Returns tt,
     mkState hello (to_chat_message <$> hello)
       (vectorstore after_first_run ++ exchange_documents hello)
       (disk after_first_run) (stdout after_first_run))
  /\ 2 <= occurrences (exchange_document "hello" "re: hello")
            (vectorstore after_first_run ++ exchange_documents hello).
Proof.
  destruct (init_reindexes_loaded_history cooperative memory_pkl
              after_first_run (dumps hello) hello) as [Hrun Hocc].
  - vm_compute; reflexivity.
  - vm_compute; reflexivity.
  - discriminate.
  - reflexivity.
  - split; [exact Hrun|].
    apply (Hocc (exchange_document "hello" "re: hello")).
    + apply (bool_decide_unpack _). vm_compute. exact I.
    + apply (bool_decide_unpack _). vm_compute. exact I.
Defined.

(** C2 fails on the code: the history file holds the exchange [hello],
    two more messages are appended, and the disk takes 3 bytes of the
    save.  The save raises; the file is then neither the old version nor
    the new one, and it cannot be loaded any more. *)
Lemma interrupted_save_destroys_history_file :
  _load_pickle memory_pkl about_to_save = (Returns hello, about_to_save)
  /\ fst (_save_pickle (disk_full 3) memory_pkl about_to_save) = Raises OSError
  /\ disk (snd (_save_pickle (disk_full 3) memory_pkl about_to_save)) !! memory_pkl
     <> Some (dumps hello)
  /\ disk (snd (_save_pickle (disk_full 3) memory_pkl about_to_save)) !! memory_pkl
     <> Some (dumps (hello ++ hello))
  /\ fst (_load_pickle memory_pkl
            (snd (_save_pickle (disk_full 3) memory_pkl about_to_save)))
     = Raises UnpicklingError.
Proof.
  repeat split; try (vm_compute; reflexivity); vm_compute; discriminate.
Qed.

(** C3 fails on the code: the index refuses the document of the turn.
    [chat] raises, the two messages are in the history of the process,
    and no history file was written or even opened. *)
Lemma failed_indexing_skips_the_save :
  fst (chat index_down memory_pkl "hello" fresh) = Raises VectorStoreError
  /\ conversation_history (snd (chat index_down memory_pkl "hello" fresh)) = hello
  /\ disk (snd (chat index_down memory_pkl "hello" fresh)) !! memory_pkl = None
  /\ (forall s, is_Some (disk (snd (_save_pickle index_down memory_pkl s))
                          !! memory_pkl)).
Proof.
  repeat split; try (vm_compute; reflexivity).
  intros s. rewrite _save_pickle_unfold. apply write_file_touches.
Qed.

(** One turn with the index down, and one with a disk that takes 3
    bytes. *)
Lemma chat_failures_propagate_witness :
  chat index_down memory_pkl "hello" fresh
  = (Raises VectorStoreError, after_answer "hello" "re: hello" fresh)
  /\ chat (disk_full 3) memory_pkl "hello" fresh
     = (Raises OSError,
        set_disk (<[memory_pkl := take 3 (dumps hello)]> (disk fresh))
          (set_vectorstore
             (vectorstore fresh ++ [exchange_document "hello" "re: hello"])
             (after_answer "hello" "re: hello" fresh))).
Proof.
  split.
  - apply (chat_failures_propagate index_down memory_pkl "hello" "re: hello" fresh);
      reflexivity.
  - apply (chat_failures_propagate (disk_full 3) memory_pkl "hello" "re: hello" fresh);
      [reflexivity | reflexivity | reflexivity | vm_compute; lia].
Defined.

(** Two turns from the fresh state. *)
Lemma chats_history_index_parity_witness :
  length (conversation_history
            (snd (chats cooperative memory_pkl ["hello"; "more"] fresh))) = 2 * 2
  /\ length (vectorstore
               (snd (chats cooperative memory_pkl ["hello"; "more"] fresh))) = 2.
Proof.
  destruct (chats_history_index_parity cooperative memory_pkl
              ["hello"; "more"] ["re: hello"; "re: more"] fresh
              (snd (chats cooperative memory_pkl ["hello"; "more"] fresh)))
    as (Hh & Hv & _).
  - reflexivity.
  - reflexivity.
  - vm_compute; reflexivity.
  - split; [exact Hh | exact Hv].
Defined.

(** The bot [greeted] saves the exchange [hello]; a process that holds
    no history of its own and finds that disk loads [hello]. *)
Lemma load_after_save_roundtrip_witness :
  conversation_history after_first_run = []
  /\ disk (snd (_save_pickle cooperative memory_pkl greeted)) !! memory_pkl
     = Some (Framed.dumps_history hello)
  /\ _load_pickle memory_pkl after_first_run = (Returns hello, after_first_run).
Proof.
  split; [reflexivity|].
  apply (load_after_save_roundtrip (PickleHistory := Framed.pickle_history)
           cooperative memory_pkl greeted
           (snd (_save_pickle cooperative memory_pkl greeted)) after_first_run);
    vm_compute; reflexivity.
Defined.

(** Against C6 as the spec words it: the history file is there and is
    no history, it holds the pickle of an empty dict, or of [None];
    [_load_pickle] raises nothing and returns the object, and
    [rag_astrobot.py] starts with an empty memory as if there were no
    file.  The file that [run_astrobot.py] leaves after the turn
    [hello] is no memory of [rag_astrobot.py], which reads it without
    an error as two replies that nobody gave. *)
Lemma foreign_pickle_loads_without_error :
  disk holds_empty_dict !! memory_pkl = Some pickle_of_empty_dict
  /\ Dynamic._load_pickle memory_pkl holds_empty_dict
     = (Returns (Dynamic.PyDict []), holds_empty_dict)
  /\ (forall h, Dynamic.PyDict [] <> Dynamic.history_object h)
  /\ Dynamic.load_memory memory_pkl holds_empty_dict = (Returns tt, holds_empty_dict)
  /\ Dynamic._load_pickle memory_pkl holds_None = (Returns Dynamic.PyNone, holds_None)
  /\ Dynamic.load_memory memory_pkl holds_None = (Returns tt, holds_None)
  /\ Dynamic.load_memory memory_pkl fresh = (Returns tt, fresh)
  /\ Dynamic._load_pickle memory_pkl holds_hello
     = (Returns (Dynamic.history_object hello), holds_hello)
  /\ Dynamic.load_memory memory_pkl holds_hello
     = (Returns tt, set_memory [AIMessage "content"; AIMessage "content"] holds_hello).
Proof.
  repeat split; try (vm_compute; reflexivity).
  intros h. unfold Dynamic.history_object. discriminate.
Qed.

(** Loading with no history file, and with one that holds two stray
    bytes. *)
Lemma load_missing_or_malformed_witness :
  (Dynamic._load_pickle memory_pkl fresh = (Returns (Dynamic.PyList []), fresh)
   /\ Dynamic.load_memory memory_pkl fresh = (Returns tt, set_memory [] fresh))
  /\ Dynamic._load_pickle memory_pkl corrupted = (Raises UnpicklingError, corrupted)
  /\ Dynamic.load_memory memory_pkl corrupted = (Raises UnpicklingError, corrupted).
Proof.
  split.
  - apply (load_missing_or_malformed memory_pkl fresh). vm_compute; reflexivity.
  - destruct (load_missing_or_malformed memory_pkl corrupted) as [_ Hbad].
    destruct (Hbad [x02; x03]) as [Hstray _]; [vm_compute; reflexivity|].
    apply Hstray. vm_compute; reflexivity.
Defined.



(** Adding ["notes.md"]. *)
Lemma unrecognized_extension_uses_text_loader_witness :
  select_loader "notes.md" fresh
  = (Returns TextLoader, set_stdout (stdout fresh ++ [unsupported_warning]) fresh)
  /\ exists s', add_a_document cooperative "notes.md" fresh = (Returns tt, s').
Proof.
  destruct (unrecognized_extension_uses_text_loader cooperative "notes.md" fresh)
    as (Hsel & Hret & _); [reflexivity | reflexivity | reflexivity |].
  split; [exact Hsel | exact Hret].
Defined.

(** Indexing the history [hello] gives the one document of its
    exchange; indexing a history that holds replies only gives none
    and leaves the index alone, also when the index is down. *)
Lemma add_history_one_document_per_human_witness :
  _add_history_to_vectorstore cooperative greeted
  = (Returns tt,
     set_vectorstore
       [mkDocument
          ("Human: hello" +:+ String (Ascii.ascii_of_nat 10) ""
           +:+ "Assistant: re: hello") []]
       greeted)
  /\ _add_history_to_vectorstore index_down
       (mkState [mkMessage "AIMessage" "one"; mkMessage "SystemMessage" "two"]
          [] [] ∅ [])
     = (Returns tt,
        mkState [mkMessage "AIMessage" "one"; mkMessage "SystemMessage" "two"]
          [] [] ∅ []).
Proof.
  split.
  - destruct (add_history_one_document_per_human cooperative greeted) as [Hrun _].
    exact Hrun.
  - destruct (add_history_one_document_per_human index_down
                (mkState [mkMessage "AIMessage" "one"; mkMessage "SystemMessage" "two"]
                   [] [] ∅ []))
      as [Hrun _].
    exact Hrun.
Defined.

(** The turn ["hello"] from the fresh state. *)
Lemma chat_answer_is_recorded_witness :
  last (conversation_history (snd (chat cooperative memory_pkl "hello" fresh)))
  = Some (mkMessage "AIMessage" "re: hello").
Proof.
  destruct (chat_answer_is_recorded cooperative memory_pkl "hello" "re: hello" fresh
              (snd (chat cooperative memory_pkl "hello" fresh)))
    as [Hlast _]; [vm_compute; reflexivity | exact Hlast].
Defined.

(** Two turns from the fresh state, then what the history file holds. *)
Lemma returned_turns_are_persisted_witness :
  _load_pickle memory_pkl (snd (chats cooperative memory_pkl ["hello"; "more"] fresh))
  = (Returns (conversation_history
                (snd (chats cooperative memory_pkl ["hello"; "more"] fresh))),
     snd (chats cooperative memory_pkl ["hello"; "more"] fresh)).
Proof.
  apply (returned_turns_are_persisted cooperative memory_pkl
           ["hello"; "more"] ["re: hello"; "re: more"] fresh).
  - discriminate.
  - vm_compute; reflexivity.
Defined.

(** Two turns from the fresh state: the index is the documents of the
    history. *)
Lemma turn_documents_match_startup_indexing_witness :
  vectorstore (snd (chats cooperative memory_pkl ["hello"; "more"] fresh))
  = exchange_documents
      (conversation_history
         (snd (chats cooperative memory_pkl ["hello"; "more"] fresh))).
Proof.
  apply (turn_documents_match_startup_indexing cooperative memory_pkl
           ["hello"; "more"] ["re: hello"; "re: more"] fresh).
  - vm_compute; reflexivity.
  - reflexivity.
Defined.

(** One turn from the fresh state, then the restart. *)
Lemma restart_after_turns_doubles_index_witness :
  length (vectorstore (snd (chats cooperative memory_pkl ["hello"] fresh))
            ++ vectorstore (snd (chats cooperative memory_pkl ["hello"] fresh)))
  = 2 * 1.
Proof.
  apply (restart_after_turns_doubles_index cooperative memory_pkl
           ["hello"] ["re: hello"] fresh).
  - reflexivity.
  - reflexivity.
  - discriminate.
  - vm_compute; reflexivity.
  - reflexivity.
Defined.

(** A start with no history file, with a corrupted one, and with one
    that holds no message of the user. *)
Lemma init_edge_cases_witness :
  __init__ cooperative memory_pkl fresh = (Returns tt, fresh)
  /\ __init__ cooperative memory_pkl corrupted = (Raises UnpicklingError, corrupted)
  /\ __init__ index_down memory_pkl only_replies
     = (Returns tt,
        mkState [mkMessage "AIMessage" "one"; mkMessage "SystemMessage" "two"]
          [AIMessage "one"; AIMessage "two"] [] (disk only_replies) []).
Proof.
  split; [|split].
  - apply (init_edge_cases cooperative memory_pkl fresh). vm_compute; reflexivity.
  - destruct (init_edge_cases cooperative memory_pkl corrupted) as (_ & Hbad & _).
    apply (Hbad [x02; x03]); vm_compute; reflexivity.
  - destruct (init_edge_cases index_down memory_pkl only_replies) as (_ & _ & Hnone).
    apply (Hnone (dumps [mkMessage "AIMessage" "one"; mkMessage "SystemMessage" "two"])).
    + vm_compute; reflexivity.
    + vm_compute; reflexivity.
    + repeat constructor; discriminate.
Defined.

(** The turn ["hello"] from the fresh state, and the same turn with the
    index down. *)
Lemma chat_keeps_memory_mirrored_witness :
  mirrored (snd (chat cooperative memory_pkl "hello" fresh))
  /\ mirrored (snd (chat index_down memory_pkl "hello" fresh)).
Proof.
  split.
  - apply (chat_keeps_memory_mirrored cooperative memory_pkl "hello" fresh).
    reflexivity.
  - apply (chat_keeps_memory_mirrored index_down memory_pkl "hello" fresh).
    reflexivity.
Defined.

(** The start of [rag_astrobot.py] on the file its last exit left. *)
Lemma load_memory_restores_saved_witness :
  load_memory memory_pkl memory_saved = (Returns tt, set_memory remembered memory_saved).
Proof.
  apply (load_memory_restores_saved memory_pkl remembered memory_saved).
  vm_compute; reflexivity.
Defined.

(** A session: one turn, a document, an exit. *)
Lemma main_end_is_persisted_witness :
  persisted "conversation_memory.pkl"
    (snd (main cooperative ["hello"; "Add a document"; "notes.md"; "BYE"] fresh))
  /\ mirrored
       (snd (main cooperative ["hello"; "Add a document"; "notes.md"; "BYE"] fresh)).
Proof.
  destruct (main_end_is_persisted cooperative
              ["hello"; "Add a document"; "notes.md"; "BYE"] fresh
              (snd (main cooperative ["hello"; "Add a document"; "notes.md"; "BYE"] fresh))
              Exited) as (Hp & Hm & _).
  - vm_compute; reflexivity.
  - split; [exact Hp | exact Hm].
Defined.

